(** * apollo_configs: the configuration client of [apollo_configs/client.py]

    A shallow embedding of [ApolloClient] and of the Python values it handles,
    followed by the properties of its synchronisation core: fetch-or-fallback,
    the snapshot files, the diff of [update], the subscriber registry and the
    selection of the configuration server.

    What the client calls and does not define is part of the world it runs in:
    the network, the clock, the disk, and the [json] module of the interpreter.
    A [string] holds a Python [str] in UTF-8; the client cuts and compares
    strings at ASCII characters only, which UTF-8 leaves where they are. *)

From Stdlib Require Import ZArith Lia Ascii String.
From stdpp Require Import gmap strings list sorting.

#[local] Set Warnings "-register-all".

Local Open Scope Z_scope.

(** ** Python values and exceptions *)

(** The exception classes the client meets, each a subclass of [Exception].
    [RequestException] stands for every error [requests.request] raises
    (connection refused, timeout), [OSError] for an error of the disk other
    than [FileNotFoundError], and [CallbackError] for whatever a subscriber's
    callable raises. [ValueError] is the class itself, as [int] raises it for a
    literal of too many digits: [JSONDecodeError] and [UnicodeDecodeError] are
    subclasses of it, and a handler for one of them lets a plain [ValueError]
    pass. *)
Inductive exn :=
| ValueError | TypeError | KeyError | IndexError | AttributeError
| JSONDecodeError | UnicodeDecodeError | RecursionError
| FileNotFoundError | OSError | RequestException
| CallbackError.

Inductive result (A : Type) :=
| Ok (a : A)
| Raise (e : exn).
Arguments Ok {A} a.
Arguments Raise {A} e.

(** A [float] is an IEEE 754 double: a NaN, an infinity, or the number
    [mantissa * 2 ^ exponent] with its sign (zero has one too). *)
Inductive pyfloat :=
| FNaN
| FInf (negative : bool)
| FNum (negative : bool) (mantissa : N) (exponent : Z).

(** [a == b] on floats: a NaN equals nothing, itself included; the two zeros
    are equal; numbers are compared by value. *)
Definition float_eqb (a b : pyfloat) : bool :=
  match a, b with
  | FInf s, FInf t => Bool.eqb s t
  | FNum s m e, FNum t n f =>
      if (m =? 0)%N then (n =? 0)%N
      else Bool.eqb s t
           && (Z.of_N m * 2 ^ (e - Z.min e f) =? Z.of_N n * 2 ^ (f - Z.min e f))
  | _, _ => false
  end.

(** An [int] as the number it is: Python compares an [int] and a [float] by
    value, without rounding the [int]. *)
Definition float_of_Z (z : Z) : pyfloat := FNum (z <? 0) (Z.abs_N z) 0.

(** Values as [json] and [yaml] produce them and as the caches hold them.  A
    dict is the list of its items in insertion order; Python keeps its keys
    distinct. *)
Inductive pyval :=
| PNone
| PBool (b : bool)
| PInt (z : Z)
| PFloat (f : pyfloat)
| PStr (s : string)
| PList (l : list pyval)
| PDict (d : list (string * pyval)).

(** [d.get(k)] on the items of a dict. *)
Fixpoint assoc {A} (k : string) (d : list (string * A)) : option A :=
  match d with
  | [] => None
  | (k', v) :: d' => if String.eqb k k' then Some v else assoc k d'
  end.

(** Python's [==]: [bool] is a subclass of [int], so [True == 1]; numbers are
    equal when their values are; dicts are equal when they have the same keys
    with equal values, in any order. The objects compared are taken not to be
    one and the same, as the value the client stored and the value of a later
    answer of the server are: of one and the same list or dict Python takes
    the elements as equal without comparing them, which shows only when a NaN
    is among them. A [float] itself is compared by value also with itself. *)
Fixpoint py_eqb (a b : pyval) : bool :=
  match a, b with
  | PNone, PNone => true
  | PBool x, PBool y => Bool.eqb x y
  | PBool x, PInt z => Z.b2z x =? z
  | PInt z, PBool x => z =? Z.b2z x
  | PInt x, PInt y => x =? y
  | PBool x, PFloat f => float_eqb (float_of_Z (Z.b2z x)) f
  | PFloat f, PBool x => float_eqb f (float_of_Z (Z.b2z x))
  | PInt z, PFloat f => float_eqb (float_of_Z z) f
  | PFloat f, PInt z => float_eqb f (float_of_Z z)
  | PFloat f, PFloat g => float_eqb f g
  | PStr s, PStr t => String.eqb s t
  | PList l, PList m =>
      (fix go (l m : list pyval) : bool :=
         match l, m with
         | [], [] => true
         | x :: l', y :: m' => py_eqb x y && go l' m'
         | _, _ => false
         end) l m
  | PDict d, PDict e =>
      (length d =? length e)%nat &&
      (fix go (d : list (string * pyval)) : bool :=
         match d with
         | [] => true
         | (k, v) :: d' =>
             match assoc k e with
             | Some w => py_eqb v w
             | None => false
             end && go d'
         end) d
  | _, _ => false
  end.

(** Truth value of an object: [if x:], [not x], [x or y]. *)
Definition truthy (v : pyval) : bool :=
  match v with
  | PNone => false
  | PBool b => b
  | PInt z => negb (z =? 0)
  | PFloat f => match f with FNum _ m _ => negb (m =? 0)%N | _ => true end
  | PStr s => negb (String.eqb s "")
  | PList l => match l with [] => false | _ => true end
  | PDict d => match d with [] => false | _ => true end
  end.



(** [x.get(key, default)]: only a dict has the method. *)
Definition py_get (x : pyval) (key : string) (default : pyval) : result pyval :=
  match x with
  | PDict d => Ok (from_option id default (assoc key d))
  | _ => Raise AttributeError
  end.

(** [x[key]] with a string key. *)
Definition py_getitem (x : pyval) (key : string) : result pyval :=
  match x with
  | PDict d => match assoc key d with Some v => Ok v | None => Raise KeyError end
  | _ => Raise TypeError
  end.

(** [x[0]]: the first element of a list, the first character of a string;
    a dict from [json] has string keys only, so [0] is not one of them. *)
Definition py_first (x : pyval) : result pyval :=
  match x with
  | PList (v :: _) => Ok v
  | PList [] => Raise IndexError
  | PStr (String c _) => Ok (PStr (String c EmptyString))
  | PStr EmptyString => Raise IndexError
  | PDict _ => Raise KeyError
  | _ => Raise TypeError
  end.

Fixpoint chars (s : string) : list pyval :=
  match s with
  | EmptyString => []
  | String c s' => PStr (String c EmptyString) :: chars s'
  end.

(** [for x in v]: the elements of a list, the keys of a dict, the characters
    of a string. *)
Definition py_iter (v : pyval) : result (list pyval) :=
  match v with
  | PList l => Ok l
  | PDict d => Ok (PStr <$> d.*1)
  | PStr s => Ok (chars s)
  | _ => Raise TypeError
  end.

(** ** The pydantic models *)

Module ApolloValue.
Record t := mk { value : pyval; update : bool }.
End ApolloValue.

(** [ApolloConfig = Dict[str, ApolloValue]]. *)
Abbreviation ApolloConfig := (gmap string ApolloValue.t).

Module ApolloServerResponse.
Record t := mk { release_key : string; config : gmap string pyval }.
End ApolloServerResponse.

(** [action] is the callable: what it does with the configuration it is handed
    is its own business, the client sees it return or raise. The field
    [namespace] is a [str], yet [notify] tests it against [None]. *)
Module ApolloSubscriber.
Record t := mk {
  action : option ApolloConfig → result ();
  priority : Z;
  namespace : option string }.
End ApolloSubscriber.

(** ** The transport and the state *)

(** [requests.Response]: the status and what [response.json()] gives. *)
Record Response := { status_code : Z; json : result pyval }.

(** One invocation of a subscriber's callable. *)
Record call := { callee : ApolloSubscriber.t; argument : option ApolloConfig }.

(** The attributes of the [ApolloClient] object, then the world it acts on:
    [net] answers a GET of a URL (or raises), [clock] is [str(time.time())],
    [files] is the content of the regular files of the disk by path (a path
    that is not in it does not exist),
    [open_w] tells whether [open(path, "w")] succeeds (it raises for a path in
    a directory that does not exist), [listdir] is [os.listdir], and [calls]
    records the callbacks invoked so far. [json_dumps] and [json_loads] are
    [json.dumps] and [json.loads] of the interpreter, for a text and for the
    content of a file alike: they return or raise, [json.loads] also with an
    exception that is no [JSONDecodeError] ([ValueError] for an integer of
    more digits than [int] converts, [RecursionError], [UnicodeDecodeError]
    for a file that is not UTF-8). [http_client] is the base URL the client's
    [HttpClient] was built with. *)
Record state := {
  meta_url : string;
  app_id : string;
  cluster : string;
  namespace : string;
  _subscribers : list ApolloSubscriber.t;
  notification_id_map : gmap string Z;
  configs : gmap string ApolloConfig;
  _cache : gmap string pyval;
  _hash : gmap string pyval;
  _config_server_url : pyval;
  _cache_file_dir_path : string;
  http_client : string;
  net : string → result Response;
  clock : string;
  files : gmap string string;
  open_w : string → result ();
  listdir : string → result (list string);
  json_dumps : pyval → result string;
  json_loads : string → result pyval;
  calls : list call }.

Definition set_subscribers (x : list ApolloSubscriber.t) (st : state) : state :=
  {| meta_url := meta_url st; app_id := app_id st; cluster := cluster st;
     namespace := namespace st; _subscribers := x;
     notification_id_map := notification_id_map st; configs := configs st;
     _cache := _cache st; _hash := _hash st;
     _config_server_url := _config_server_url st;
     _cache_file_dir_path := _cache_file_dir_path st;
     http_client := http_client st; net := net st; clock := clock st;
     files := files st; open_w := open_w st; listdir := listdir st;
     json_dumps := json_dumps st; json_loads := json_loads st; calls := calls st |}.

Definition set_configs (x : gmap string ApolloConfig) (st : state) : state :=
  {| meta_url := meta_url st; app_id := app_id st; cluster := cluster st;
     namespace := namespace st; _subscribers := _subscribers st;
     notification_id_map := notification_id_map st; configs := x;
     _cache := _cache st; _hash := _hash st;
     _config_server_url := _config_server_url st;
     _cache_file_dir_path := _cache_file_dir_path st;
     http_client := http_client st; net := net st; clock := clock st;
     files := files st; open_w := open_w st; listdir := listdir st;
     json_dumps := json_dumps st; json_loads := json_loads st; calls := calls st |}.

Definition set_cache (x : gmap string pyval) (st : state) : state :=
  {| meta_url := meta_url st; app_id := app_id st; cluster := cluster st;
     namespace := namespace st; _subscribers := _subscribers st;
     notification_id_map := notification_id_map st; configs := configs st;
     _cache := x; _hash := _hash st;
     _config_server_url := _config_server_url st;
     _cache_file_dir_path := _cache_file_dir_path st;
     http_client := http_client st; net := net st; clock := clock st;
     files := files st; open_w := open_w st; listdir := listdir st;
     json_dumps := json_dumps st; json_loads := json_loads st; calls := calls st |}.

Definition set_hash (x : gmap string pyval) (st : state) : state :=
  {| meta_url := meta_url st; app_id := app_id st; cluster := cluster st;
     namespace := namespace st; _subscribers := _subscribers st;
     notification_id_map := notification_id_map st; configs := configs st;
     _cache := _cache st; _hash := x;
     _config_server_url := _config_server_url st;
     _cache_file_dir_path := _cache_file_dir_path st;
     http_client := http_client st; net := net st; clock := clock st;
     files := files st; open_w := open_w st; listdir := listdir st;
     json_dumps := json_dumps st; json_loads := json_loads st; calls := calls st |}.

Definition set_config_server_url (x : pyval) (st : state) : state :=
  {| meta_url := meta_url st; app_id := app_id st; cluster := cluster st;
     namespace := namespace st; _subscribers := _subscribers st;
     notification_id_map := notification_id_map st; configs := configs st;
     _cache := _cache st; _hash := _hash st;
     _config_server_url := x;
     _cache_file_dir_path := _cache_file_dir_path st;
     http_client := http_client st; net := net st; clock := clock st;
     files := files st; open_w := open_w st; listdir := listdir st;
     json_dumps := json_dumps st; json_loads := json_loads st; calls := calls st |}.

Definition set_files (x : gmap string string) (st : state) : state :=
  {| meta_url := meta_url st; app_id := app_id st; cluster := cluster st;
     namespace := namespace st; _subscribers := _subscribers st;
     notification_id_map := notification_id_map st; configs := configs st;
     _cache := _cache st; _hash := _hash st;
     _config_server_url := _config_server_url st;
     _cache_file_dir_path := _cache_file_dir_path st;
     http_client := http_client st; net := net st; clock := clock st;
     files := x; open_w := open_w st; listdir := listdir st;
     json_dumps := json_dumps st; json_loads := json_loads st; calls := calls st |}.

Definition set_calls (x : list call) (st : state) : state :=
  {| meta_url := meta_url st; app_id := app_id st; cluster := cluster st;
     namespace := namespace st; _subscribers := _subscribers st;
     notification_id_map := notification_id_map st; configs := configs st;
     _cache := _cache st; _hash := _hash st;
     _config_server_url := _config_server_url st;
     _cache_file_dir_path := _cache_file_dir_path st;
     http_client := http_client st; net := net st; clock := clock st;
     files := files st; open_w := open_w st; listdir := listdir st;
     json_dumps := json_dumps st; json_loads := json_loads st; calls := x |}.

(** A method of the client: it runs on a state, returns or raises, and leaves
    a state behind either way (an exception undoes no assignment). *)
Definition M (A : Type) : Type := state → result A * state.

Definition ret {A} (a : A) : M A := λ st, (Ok a, st).
Definition raise {A} (e : exn) : M A := λ st, (Raise e, st).
Definition bind {A B} (m : M A) (f : A → M B) : M B :=
  λ st, match m st with
        | (Ok a, st') => f a st'
        | (Raise e, st') => (Raise e, st')
        end.
(** [try: m except Exception as e: h e]. *)
Definition try_except {A} (m : M A) (h : exn → M A) : M A :=
  λ st, match m st with
        | (Ok a, st') => (Ok a, st')
        | (Raise e, st') => h e st'
        end.
Definition lift {A} (r : result A) : M A := λ st, (r, st).
Definition get {A} (f : state → A) : M A := λ st, (Ok (f st), st).
(** A call of the world: it answers or raises. *)
Definition ask {A} (f : state → result A) : M A := λ st, (f st, st).
Definition modify (f : state → state) : M () := λ st, (Ok (), f st).

#[global] Instance M_ret : MRet M := @ret.
#[global] Instance M_bind : MBind M := λ A B f m, bind m f.

(** [for x in l: body x]. *)
Fixpoint for_each {A} (l : list A) (body : A → M ()) : M () :=
  match l with
  | [] => ret ()
  | x :: l' => body x ;; for_each l' body
  end.

(** ** The subscriber registry *)

(** [sorted(l, key=lambda s: s.priority, reverse=True)]: the sort is stable,
    an element goes in front of the first one whose priority is not higher. *)
Fixpoint insert_sorted (x : ApolloSubscriber.t) (l : list ApolloSubscriber.t)
  : list ApolloSubscriber.t :=
  match l with
  | [] => [x]
  | y :: l' =>
      if ApolloSubscriber.priority x <? ApolloSubscriber.priority y
      then y :: insert_sorted x l'
      else x :: y :: l'
  end.

Definition sorted (l : list ApolloSubscriber.t) : list ApolloSubscriber.t :=
  foldr insert_sorted [] l.

Definition check_subscribers : M () :=
  subscribers ← get _subscribers ;
  ns ← get namespace ;
  for_each subscribers (λ subscriber,
    if bool_decide (ApolloSubscriber.namespace subscriber ≠ Some ns)
    then raise ValueError
    else ret ()).

(** [subscriber.action(arg)]. *)
Definition invoke (subscriber : ApolloSubscriber.t) (arg : option ApolloConfig) : M () :=
  modify (λ st, set_calls (calls st ++ [{| callee := subscriber; argument := arg |}]) st) ;;
  lift (ApolloSubscriber.action subscriber arg).

(** The body of the loop of [notify]. *)
Definition notify_one (subscriber : ApolloSubscriber.t) : M () :=
  match ApolloSubscriber.namespace subscriber with
  | None => invoke subscriber None
  | Some ns =>
      cfgs ← get configs;
      match cfgs !! ns with
      | Some cfg => invoke subscriber (Some cfg)
      | None => raise KeyError
      end
  end.

Definition notify : M () :=
  modify (λ st, set_subscribers (sorted (_subscribers st)) st);;
  subscribers ← get _subscribers;
  for_each subscribers notify_one.

Definition add_subscriber (subscriber : ApolloSubscriber.t) : M () :=
  modify (λ st, set_subscribers (_subscribers st ++ [subscriber]) st) ;;
  check_subscribers.

(** ** Cache update and diff *)

(** [self.configs[namespace][key] = v]; [update] has made the namespace's dict. *)
Definition set_config_item (namespace key : string) (v : ApolloValue.t) : M () :=
  cfgs ← get configs ;
  match cfgs !! namespace with
  | Some cfg => modify (set_configs (<[namespace := <[key := v]> cfg]> cfgs))
  | None => raise KeyError
  end.

(** The body of the loop of [update]. *)
Definition update_item (namespace : string) (item : string * pyval) : M () :=
  let '(key, value_in_server) := item in
  cfgs ← get configs;
  match cfgs !! namespace with
  | None => raise KeyError
  | Some cfg =>
      match cfg !! key with
      | Some current_value =>
          if negb (py_eqb (ApolloValue.value current_value) value_in_server)
          then set_config_item namespace key (ApolloValue.mk value_in_server true)
          else set_config_item namespace key (ApolloValue.mk value_in_server false)
      | None =>
          set_config_item namespace key (ApolloValue.mk value_in_server true)
      end
  end.

Definition update (server_response : ApolloServerResponse.t) (namespace : string) : M () :=
  cfgs ← get configs;
  (if bool_decide (namespace ∉ dom cfgs)
   then modify (set_configs (<[namespace := ∅]> cfgs))
   else ret ());;
  for_each (map_to_list (ApolloServerResponse.config server_response))
    (update_item namespace);;
  notify.

(** ** The server directory *)

(** [HttpClient(base).get(path)]: a GET of [base] followed by [path]. *)
Definition http_get (base path : string) : M Response :=
  λ st, (net st (base +:+ path), st).

Definition get_service_conf : M pyval :=
  base ← get meta_url;
  app ← get app_id;
  let service_conf_path := "services/config?appId=" +:+ app in
  response ← http_get base service_conf_path;
  if negb (status_code response =? 200) then raise ValueError
  else
    try_except
      (service_conf ← lift (json response);
       if negb (truthy service_conf) then raise ValueError else ret service_conf)
      (λ _, raise ValueError).

(** [[service for service in l if service["homepageUrl"] != exclude]] over the
    elements [l] the iteration yields. *)
Fixpoint exclude_services (exclude : pyval) (l : list pyval) : result (list pyval) :=
  match l with
  | [] => Ok []
  | service :: l' =>
      match py_getitem service "homepageUrl" with
      | Raise e => Raise e
      | Ok url =>
          match exclude_services exclude l' with
          | Raise e => Raise e
          | Ok kept => Ok (if negb (py_eqb url exclude) then service :: kept else kept)
          end
      end
  end.

Definition update_config_server (exclude : pyval) : M pyval :=
  service_conf ← get_service_conf;
  service_conf ← (if truthy exclude
                  then services ← lift (py_iter service_conf);
                       kept ← lift (exclude_services exclude services);
                       ret (PList kept)
                  else ret service_conf);
  service ← lift (py_first service_conf);
  url ← lift (py_getitem service "homepageUrl");
  modify (set_config_server_url url);;
  ret url.

(** ** The local snapshot store *)

Fixpoint ends_with (c : ascii) (s : string) : bool :=
  match s with
  | EmptyString => false
  | String x EmptyString => Ascii.eqb x c
  | String _ s' => ends_with c s'
  end.

(** [os.path.join(a, b)] of [posixpath]. *)
Definition path_join (a b : string) : string :=
  if String.prefix "/" b then b
  else if String.eqb a "" || ends_with "/" a then a +:+ b
  else a +:+ "/" +:+ b.

Definition cache_file_path (namespace : string) : M string :=
  dir ← get _cache_file_dir_path;
  app ← get app_id;
  ret (path_join dir (app +:+ "_configuration_" +:+ namespace +:+ ".txt")).

#[global] Instance exn_eq_dec : EqDecision exn.
Proof. solve_decision. Defined.

(** [try: m except (classes): h]: an exception of another class passes. *)
Definition try_except_of {A} (classes : list exn) (m : M A) (h : exn → M A) : M A :=
  λ st, match m st with
        | (Ok a, st') => (Ok a, st')
        | (Raise e, st') => if bool_decide (e ∈ classes) then h e st' else (Raise e, st')
        end.

(** [open(path, "w")]: it raises, or the file is there and empty. *)
Definition open_write (path : string) : M () :=
  λ st, match open_w st path with
        | Ok _ => (Ok (), set_files (<[path := ""]> (files st)) st)
        | Raise e => (Raise e, st)
        end.

(** The file is open, and emptied, before [json.dumps] runs; the release key
    is recorded once the text is written. *)
Definition update_local_file_cache (release_key data : pyval) (namespace : string) : M () :=
  h ← get _hash;
  if negb (py_eqb (from_option id PNone (h !! namespace)) release_key)
  then
    path ← cache_file_path namespace;
    open_write path;;
    new_string ← ask (λ st, json_dumps st data);
    modify (λ st, set_files (<[path := new_string]> (files st)) st);;
    modify (λ st, set_hash (<[namespace := release_key]> (_hash st)) st)
  else ret ().

(** [open(path, "r")] then [json.load]. *)
Definition read_json (path : string) : M pyval :=
  fs ← get files;
  match fs !! path with
  | Some text => ask (λ st, json_loads st text)
  | None => raise FileNotFoundError
  end.

Definition get_local_file_cache (namespace : string) : M pyval :=
  path ← cache_file_path namespace;
  try_except_of [FileNotFoundError; JSONDecodeError]
    (read_json path)
    (λ _, ret (PDict [])).

Definition update_cache (namespace : string) (data : pyval) : M () :=
  modify (λ st, set_cache (<[namespace := data]> (_cache st)) st).

(** ** Fetch or fall back *)

Definition fetch_config_by_namespace (namespace : string) : M () :=
  app ← get app_id;
  cl ← get cluster;
  let url := "configs/" +:+ app +:+ "/" +:+ cl +:+ "/" +:+ namespace in
  try_except
    (base ← get http_client;
     response ← http_get base url;
     if status_code response =? 200
     then
       data ← lift (json response);
       now ← get clock;
       configurations ← lift (py_get data "configurations" (PDict []));
       release_key ← lift (py_get data "releaseKey" (PStr now));
       update_cache namespace configurations;;
       update_local_file_cache release_key configurations namespace
     else
       data ← get_local_file_cache namespace;
       update_cache namespace data)
    (λ e,
       data ← get_local_file_cache namespace;
       update_cache namespace data;;
       current ← get _config_server_url;
       update_config_server current;;
       ret ()).

Fixpoint rfind_from (c : ascii) (s : string) (i found : Z) : Z :=
  match s with
  | EmptyString => found
  | String x s' => rfind_from c s' (i + 1) (if Ascii.eqb x c then i else found)
  end.

(** [s.rfind(c)]: the last index of [c], or -1. *)
Definition rfind (c : ascii) (s : string) : Z := rfind_from c s 0 (-1).

Fixpoint all_dots (s : string) : bool :=
  match s with
  | EmptyString => true
  | String c s' => Ascii.eqb c "." && all_dots s'
  end.

(** [os.path.splitext]: the extension starts at the last dot of the last
    component, unless only dots stand before it there. *)
Definition splitext (p : string) : string * string :=
  let sepIndex := rfind "/" p in
  let dotIndex := rfind "." p in
  if (sepIndex <? dotIndex)
     && negb (all_dots (String.substring (Z.to_nat (sepIndex + 1))
                                         (Z.to_nat (dotIndex - sepIndex - 1)) p))
  then (String.substring 0 (Z.to_nat dotIndex) p,
        String.substring (Z.to_nat dotIndex) (String.length p - Z.to_nat dotIndex) p)
  else (p, "").

Fixpoint last_field_from (sep : ascii) (s cur : string) : string :=
  match s with
  | EmptyString => cur
  | String c s' =>
      if Ascii.eqb c sep then last_field_from sep s' ""
      else last_field_from sep s' (cur +:+ String c "")
  end.

(** [s.split(sep)[-1]]. *)
Definition last_field (sep : ascii) (s : string) : string := last_field_from sep s "".

Definition load_local_cache_file : M bool :=
  try_except
    (dir ← get _cache_file_dir_path;
     names ← (λ st, (listdir st dir, st));
     for_each names (λ file_name,
       let file_path := path_join dir file_name in
       fs ← get files;
       match fs !! file_path with
       | Some text =>
           let '(file_simple_name, file_ext_name) := splitext file_name in
           if String.eqb file_ext_name ".swp" then ret ()
           else
             app ← get app_id;
             if negb (String.prefix (app +:+ "_configuration_") file_simple_name)
             then ret ()
             else
               let namespace := last_field "_" file_simple_name in
               data ← ask (λ st, json_loads st text);
               update_cache namespace data
       | None => ret ()
       end);;
     ret true)
    (λ _, ret false).

Definition fetch_configuration : M () :=
  ns ← get namespace;
  try_except
    (fetch_config_by_namespace ns)
    (λ _, load_local_cache_file;; ret ()).

(** ** The read API *)

(** [json.loads(x)] for any object: only a [str] is parsed. *)
Definition py_json_loads (x : pyval) : M pyval :=
  match x with
  | PStr s => ask (λ st, json_loads st s)
  | _ => raise TypeError
  end.

Definition get_value (key : string) (default_val : pyval) (namespace : string) : M pyval :=
  try_except
    (c ← get _cache;
     match c !! namespace with
     | Some x => lift (py_get x key default_val)
     | None => ret default_val
     end)
    (λ _, ret default_val).

Definition get_json_value (key : string) (default_val : pyval) (namespace : string) : M pyval :=
  val ← get_value key PNone namespace;
  try_except_of [JSONDecodeError; TypeError]
    (py_json_loads val)
    (λ _, ret (if truthy default_val then default_val else PDict [])).

(** ** What a stored entry is, and what [notify] is expected to call *)

(** [self.configs[namespace][key]], when both exist. *)
Definition config_entry (st : state) (namespace key : string) : option ApolloValue.t :=
  configs st !! namespace ≫= λ cfg, cfg !! key.

(** The flag [update] gives a key: set unless the key is stored with an equal
    value. *)
Definition changed (old : option ApolloValue.t) (value_in_server : pyval) : bool :=
  match old with
  | Some current_value => negb (py_eqb (ApolloValue.value current_value) value_in_server)
  | None => true
  end.

(** One invocation per subscriber of [subs], each handed its namespace's
    configuration: what a full pass of [notify] over [subs] makes. *)
Definition notifications (cfgs : gmap string ApolloConfig) (subs : list ApolloSubscriber.t)
  : list call :=
  (λ s, {| callee := s;
           argument := ApolloSubscriber.namespace s ≫= λ ns, cfgs !! ns |}) <$> subs.

(** The loop of [update] over the items [l] of the server's configuration, on
    the namespace's dict alone. *)
Definition diff (cfg : ApolloConfig) (l : list (string * pyval)) : ApolloConfig :=
  foldl (λ c kv, <[kv.1 := ApolloValue.mk kv.2 (changed (c !! kv.1) kv.2)]> c) cfg l.

(** The state [update] hands over to [notify]. *)
Definition diffed (server_response : ApolloServerResponse.t) (namespace : string)
    (st : state) : state :=
  set_configs
    (<[namespace := diff (default ∅ (configs st !! namespace))
                      (map_to_list (ApolloServerResponse.config server_response))]>
       (configs st)) st.



(** ** Sample states *)

(** A callable that returns. *)
Definition quiet : option ApolloConfig → result () := λ _, Ok ().

Definition subscriber (p : Z) (ns : string) : ApolloSubscriber.t :=
  ApolloSubscriber.mk quiet p (Some ns).

(** No server answers. *)
Definition offline : string → result Response := λ _, Raise RequestException.

(** [s] between double quotes. *)
Definition quoted (s : string) : string := String "034" (s +:+ String "034" "").

(** The float 0.001, the [learning_rate] of the configuration the tests of
    the repository fetch. *)
Definition learning_rate : pyval := PFloat (FNum false 4611686018427388 (-62)).

(** Values of the examples, each with the text [json.dumps] writes for it,
    from which [json.loads] reads it. *)
Definition examples : list (pyval * string) :=
  [ (PList [PInt 1; PInt 2], "[1, 2]");
    (PDict [], "{}");
    (PNone, "null");
    (PDict [("x", PStr "1")], "{" +:+ quoted "x" +:+ ": " +:+ quoted "1" +:+ "}");
    (PDict [("model", PDict [("learning_rate", learning_rate)])],
     "{" +:+ quoted "model" +:+ ": {" +:+ quoted "learning_rate" +:+ ": 0.001}}") ].

(** An integer of 4301 digits, one more than [int] and [str] convert, and a
    text of as many digits. *)
Definition huge : Z := 10 ^ 4300.

Fixpoint nines (n : nat) : string :=
  match n with
  | O => ""
  | S n' => String "9" (nines n')
  end.

Definition float_same (a b : pyfloat) : bool :=
  match a, b with
  | FNaN, FNaN => true
  | FInf s, FInf t => Bool.eqb s t
  | FNum s m e, FNum t n f => Bool.eqb s t && (m =? n)%N && (e =? f)
  | _, _ => false
  end.

(** [a] and [b] are the same value, part by part. *)
Fixpoint same (a b : pyval) : bool :=
  match a, b with
  | PNone, PNone => true
  | PBool x, PBool y => Bool.eqb x y
  | PInt x, PInt y => x =? y
  | PFloat f, PFloat g => float_same f g
  | PStr s, PStr t => String.eqb s t
  | PList l, PList m =>
      (fix go (l m : list pyval) : bool :=
         match l, m with
         | [], [] => true
         | x :: l', y :: m' => same x y && go l' m'
         | _, _ => false
         end) l m
  | PDict d, PDict e =>
      (fix go (d e : list (string * pyval)) : bool :=
         match d, e with
         | [], [] => true
         | (k, x) :: d', (k', y) :: e' => String.eqb k k' && same x y && go d' e'
         | _, _ => false
         end) d e
  | _, _ => false
  end.

(** An integer of more than 4300 digits is inside [v]. *)
Fixpoint oversized (v : pyval) : bool :=
  match v with
  | PInt z => huge <=? Z.abs z
  | PList l =>
      (fix any (l : list pyval) : bool :=
         match l with [] => false | x :: l' => oversized x || any l' end) l
  | PDict d =>
      (fix any (d : list (string * pyval)) : bool :=
         match d with [] => false | (_, x) :: d' => oversized x || any d' end) d
  | _ => false
  end.

(** The [json] module on the values and the texts of the examples: an integer
    of more than 4300 digits is refused with [ValueError] either way, and a
    text that is none of the examples' (the examples use texts that are cut
    short) is not JSON. The properties below hold whatever [json.dumps] and
    [json.loads] do; the examples run with these. *)
Definition sample_dumps (v : pyval) : result string :=
  if oversized v then Raise ValueError
  else match List.find (λ x, same v x.1) examples with
       | Some x => Ok x.2
       | None => Raise TypeError
       end.

Definition sample_loads (text : string) : result pyval :=
  if String.eqb text (nines 4301) then Raise ValueError
  else match List.find (λ x, String.eqb text x.2) examples with
       | Some x => Ok x.1
       | None => Raise JSONDecodeError
       end.

(** The cache directory [/cache] exists and has no directory inside: a file
    opens for writing when it is to lie in [/cache] itself. *)
Definition sample_open_w (path : string) : result () :=
  if String.prefix "/cache/" path && (rfind "/" path =? 6)
  then Ok () else Raise FileNotFoundError.

(** A client for the namespace [application], nothing fetched yet. *)
Definition client0 : state :=
  {| meta_url := "http://meta:8080/"; app_id := "app"; cluster := "default";
     namespace := "application"; _subscribers := [];
     notification_id_map := ∅; configs := ∅; _cache := ∅; _hash := ∅;
     _config_server_url := PNone; _cache_file_dir_path := "/cache";
     http_client := "http://a:8080/"; net := offline; clock := "0.0";
     files := ∅; open_w := sample_open_w; listdir := λ _, Ok [];
     json_dumps := sample_dumps; json_loads := sample_loads; calls := [] |}.

(** The server's configuration as [update] receives it. *)
Definition response_of (release_key : string) (items : list (string * pyval))
  : ApolloServerResponse.t :=
  ApolloServerResponse.mk release_key (list_to_map items).


(** The client after a first answer that holds the key [a] alone. *)
Definition client_a : state :=
  (update (response_of "r1" [("a", PStr "1")]) "application" client0).2.

(** Three subscribers registered with the priorities 1, 5 and 3. *)
Definition client_153 : state :=
  set_subscribers
    [subscriber 1 "application"; subscriber 5 "application"; subscriber 3 "application"]
    client_a.

(** The URL [get_service_conf] asks. *)
Definition directory_url (st : state) : string :=
  meta_url st +:+ "services/config?appId=" +:+ app_id st.

(** A service whose [homepageUrl] is not [exclude]. *)
Definition kept (exclude service : pyval) : bool :=
  match py_getitem service "homepageUrl" with
  | Ok url => negb (py_eqb url exclude)
  | Raise _ => false
  end.

(** The services of [l] left once those at [exclude] are removed. *)
Definition remaining (exclude : pyval) (l : list pyval) : list pyval :=
  List.filter (kept exclude) l.

(** An endpoint descriptor with the given [homepageUrl]. *)
Definition endpoint (url : string) : pyval :=
  PDict [("appName", PStr "apollo-configservice"); ("homepageUrl", PStr url)].

(** The client on a network where the directory alone answers, with status
    [status] and a body that parses to [body]. *)
Definition with_directory (status : Z) (body : result pyval) (st : state) : state :=
  {| meta_url := meta_url st; app_id := app_id st; cluster := cluster st;
     namespace := namespace st; _subscribers := _subscribers st;
     notification_id_map := notification_id_map st; configs := configs st;
     _cache := _cache st; _hash := _hash st;
     _config_server_url := _config_server_url st;
     _cache_file_dir_path := _cache_file_dir_path st;
     http_client := http_client st;
     net := λ url, if String.eqb url (directory_url st)
                   then Ok {| status_code := status; json := body |}
                   else Raise RequestException;
     clock := clock st; files := files st; open_w := open_w st; listdir := listdir st;
     json_dumps := json_dumps st; json_loads := json_loads st; calls := calls st |}.

(** The client with [data] cached for the namespace [application]. *)
Definition client_cached (data : pyval) : state :=
  set_cache {["application" := data]} client0.

(** The URL [fetch_config_by_namespace] asks. *)
Definition fetch_url (st : state) (namespace : string) : string :=
  http_client st +:+ "configs/" +:+ app_id st +:+ "/" +:+ cluster st +:+ "/" +:+ namespace.

(** The path of a namespace's snapshot file. *)
Definition snapshot_path (st : state) (namespace : string) : string :=
  path_join (_cache_file_dir_path st)
    (app_id st +:+ "_configuration_" +:+ namespace +:+ ".txt").

(** What a fallback read gives: what [json.load] reads from the snapshot
    file; an empty dict when the file is missing or [json.load] finds no JSON
    in it; the exception of [json.load] when it raises another one. *)
Definition local_snapshot (st : state) (namespace : string) : result pyval :=
  match files st !! snapshot_path st namespace with
  | Some text =>
      match json_loads st text with
      | Ok data => Ok data
      | Raise e =>
          if bool_decide (e ∈ [FileNotFoundError; JSONDecodeError])
          then Ok (PDict []) else Raise e
      end
  | None => Ok (PDict [])
  end.

(** The client once [data], what the fallback read gave, is installed in the
    cache. *)
Definition fallen_back (namespace : string) (data : pyval) (st : state) : state :=
  set_cache (<[namespace := data]> (_cache st)) st.

(** The [except] branch of [fetch_config_by_namespace]: the fallback read into
    the cache, then the failover. *)
Definition recover (namespace : string) : M () :=
  data ← get_local_file_cache namespace;
  update_cache namespace data;;
  current ← get _config_server_url;
  update_config_server current;;
  ret ().

(** The failure modes of the remote fetch: the request raises (network error,
    timeout), the status is not 200, or the body of a 200 is malformed (it is
    not JSON, or not an object). *)
Definition remote_fetch_fails (st : state) (namespace : string) : Prop :=
  match net st (fetch_url st namespace) with
  | Raise _ => True
  | Ok response =>
      status_code response ≠ 200
      ∨ match json response with
        | Ok (PDict _) => False
        | _ => True
        end
  end.

(** ** Notions for the further properties *)

(** A callable that raises. *)
Definition grumpy : option ApolloConfig → result () := λ _, Raise CallbackError.

(** What [notify] hands a subscriber: [None] for a subscriber without
    namespace, else its namespace's configuration, [KeyError] when there is
    none yet. *)
Definition argument_for (cfgs : gmap string ApolloConfig) (s : ApolloSubscriber.t)
  : result (option ApolloConfig) :=
  match ApolloSubscriber.namespace s with
  | None => Ok None
  | Some ns =>
      match cfgs !! ns with
      | Some cfg => Ok (Some cfg)
      | None => Raise KeyError
      end
  end.

(** How the turn of one subscriber in [notify] ends. *)
Definition outcome (cfgs : gmap string ApolloConfig) (s : ApolloSubscriber.t) : result () :=
  match argument_for cfgs s with
  | Ok arg => ApolloSubscriber.action s arg
  | Raise e => Raise e
  end.

(** The same client on another network. *)
Definition with_net (n : string → result Response) (st : state) : state :=
  {| meta_url := meta_url st; app_id := app_id st; cluster := cluster st;
     namespace := namespace st; _subscribers := _subscribers st;
     notification_id_map := notification_id_map st; configs := configs st;
     _cache := _cache st; _hash := _hash st;
     _config_server_url := _config_server_url st;
     _cache_file_dir_path := _cache_file_dir_path st;
     http_client := http_client st; net := n; clock := clock st;
     files := files st; open_w := open_w st; listdir := listdir st;
     json_dumps := json_dumps st; json_loads := json_loads st; calls := calls st |}.

(** A network on which the config server answers the fetch of [url] with
    [response] and nothing else answers. *)
Definition serving (url : string) (response : Response) : string → result Response :=
  λ u, if String.eqb u url then Ok response else Raise RequestException.

(** [c] occurs in [s]. *)
Fixpoint has_char (c : ascii) (s : string) : bool :=
  match s with
  | EmptyString => false
  | String x s' => Ascii.eqb x c || has_char c s'
  end.

(** The name of a namespace's snapshot file in the cache directory. *)
Definition snapshot_name (st : state) (namespace : string) : string :=
  app_id st +:+ "_configuration_" +:+ namespace +:+ ".txt".

(** The same client with [names] as the listing of every directory. *)
Definition with_listing (names : list string) (st : state) : state :=
  {| meta_url := meta_url st; app_id := app_id st; cluster := cluster st;
     namespace := namespace st; _subscribers := _subscribers st;
     notification_id_map := notification_id_map st; configs := configs st;
     _cache := _cache st; _hash := _hash st;
     _config_server_url := _config_server_url st;
     _cache_file_dir_path := _cache_file_dir_path st;
     http_client := http_client st; net := net st; clock := clock st;
     files := files st; open_w := open_w st; listdir := λ _, Ok names;
     json_dumps := json_dumps st; json_loads := json_loads st; calls := calls st |}.

(** The body of the loop of [load_local_cache_file], for the directory [dir]. *)
Definition load_one (dir file_name : string) : M () :=
  let file_path := path_join dir file_name in
  fs ← get files;
  match fs !! file_path with
  | Some text =>
      let '(file_simple_name, file_ext_name) := splitext file_name in
      if String.eqb file_ext_name ".swp" then ret ()
      else
        app ← get app_id;
        if negb (String.prefix (app +:+ "_configuration_") file_simple_name)
        then ret ()
        else
          let namespace := last_field "_" file_simple_name in
          data ← ask (λ st, json_loads st text);
          update_cache namespace data
  | None => ret ()
  end.

(** The snapshot file of the namespace [x.1] is there and [json.loads] reads
    [x.2] from it. *)
Definition restorable (st : state) (x : string * pyval) : Prop :=
  has_char "/" x.1 = false
  ∧ ∃ text, files st !! snapshot_path st x.1 = Some text ∧ json_loads st text = Ok x.2.

(** The cache [c] after the snapshots [l] have been loaded in this order: each
    goes under what follows the last underscore of its namespace's name. *)
Definition restored (c : gmap string pyval) (l : list (string * pyval)) : gmap string pyval :=
  foldl (λ c x, <[last_field "_" x.1 := x.2]> c) c l.

(** A client whose cache directory holds the snapshots of two namespaces. *)
Definition two_snapshots : state :=
  with_listing ["app_configuration_dev.yml.txt"; "app_configuration_application.txt"]
    (set_files {["/cache/app_configuration_dev.yml.txt" := "[1, 2]";
                 "/cache/app_configuration_application.txt" := "{}"]} client0).

(** The same directory with a snapshot that is cut short in between. *)
Definition torn_snapshot : state :=
  with_listing ["app_configuration_dev.yml.txt"; "app_configuration_broken.txt";
                "app_configuration_application.txt"]
    (set_files {["/cache/app_configuration_dev.yml.txt" := "[1, 2]";
                 "/cache/app_configuration_broken.txt" := "[1, ";
                 "/cache/app_configuration_application.txt" := "{}"]} client0).

(** The server answers the fetch of [application] with the configuration
    [x = 1] under the release key [r1]. *)
Definition fresh_server : state :=
  with_net (serving "http://a:8080/configs/app/default/application"
              {| status_code := 200;
                 json := Ok (PDict [("releaseKey", PStr "r1");
                                    ("configurations", PDict [("x", PStr "1")])]) |})
    client0.

(** The same answer to the fetch of a namespace with a slash in its name. *)
Definition slash_server : state :=
  with_net (serving "http://a:8080/configs/app/default/a/b"
              {| status_code := 200;
                 json := Ok (PDict [("releaseKey", PStr "r1");
                                    ("configurations", PDict [("x", PStr "1")])]) |})
    client0.

(** The server answers the fetch with status 500, and the snapshot of an
    earlier fetch is on the disk. *)
Definition stale_server : state :=
  set_files {["/cache/app_configuration_application.txt"
              := "{" +:+ quoted "x" +:+ ": " +:+ quoted "1" +:+ "}"]}
    (with_net (serving "http://a:8080/configs/app/default/application"
                 {| status_code := 500; json := Raise JSONDecodeError |})
       client0).

(** The same server, and a snapshot file that holds an integer of 4301
    digits. *)
Definition unreadable_snapshot : state :=
  with_listing ["app_configuration_application.txt"]
    (set_files {["/cache/app_configuration_application.txt" := nines 4301]}
       (with_net (serving "http://a:8080/configs/app/default/application"
                    {| status_code := 500; json := Raise JSONDecodeError |})
          client0)).

(** Unfolds the steps of a method on a state. *)
Ltac run :=
  repeat (progress (unfold mbind, mret, M_bind, M_ret, bind, ret, raise, lift, get, ask,
                      modify, try_except, try_except_of;
                    cbn [fst snd])).

(** * Properties *)

(** ** The subscriber registry *)

Lemma insert_sorted_perm x l : insert_sorted x l ≡ₚ x :: l.
Proof.
  induction l as [|y l IH]; simpl; [done|].
  case_match; [|done].
  rewrite IH. apply Permutation_swap.
Qed.

Lemma sorted_perm l : sorted l ≡ₚ l.
Proof.
  induction l as [|x l IH]; simpl; [done|].
  by rewrite insert_sorted_perm, IH.
Qed.





Lemma set_calls_id st : set_calls (calls st) st = st.
Proof. by destruct st. Qed.

Lemma for_each_cons {A} (body : A → M ()) x l st :
  for_each (x :: l) body st
  = match body x st with
    | (Ok _, st') => for_each l body st'
    | (Raise e, st') => (Raise e, st')
    end.
Proof. done. Qed.

Lemma notify_one_run s st :
  notify_one s st
  = match ApolloSubscriber.namespace s with
    | Some ns =>
        match configs st !! ns with
        | Some cfg =>
            (ApolloSubscriber.action s (Some cfg),
             set_calls (calls st ++ [{| callee := s; argument := Some cfg |}]) st)
        | None => (Raise KeyError, st)
        end
    | None =>
        (ApolloSubscriber.action s None,
         set_calls (calls st ++ [{| callee := s; argument := None |}]) st)
    end.
Proof.
  unfold notify_one, invoke. destruct (ApolloSubscriber.namespace s); run; [|done].
  by destruct (configs st !! _).
Qed.

(** The loop of [notify]: the callbacks of [l] are invoked in the order of
    [l], up to the first failure. *)
Lemma notify_loop l st :
  ∃ n, (for_each l notify_one st).2
       = set_calls (calls st ++ take n (notifications (configs st) l)) st
       ∧ ((for_each l notify_one st).1 = Ok () → n = length l).
Proof.
  revert st. induction l as [|s l IH]; intros st.
  - exists 0%nat. cbn. rewrite app_nil_r, set_calls_id. done.
  - rewrite for_each_cons, notify_one_run. unfold notifications. rewrite fmap_cons.
    destruct (ApolloSubscriber.namespace s) as [ns|] eqn:Hns; cbn [mbind option_bind].
    + destruct (configs st !! ns) as [cfg|] eqn:Hcfg.
      * destruct (ApolloSubscriber.action s (Some cfg)) as [[]|e].
        -- match goal with |- context [for_each l notify_one ?st'] =>
             destruct (IH st') as (n & Hst & Hn) end.
           exists (S n). split.
           ++ rewrite Hst. cbn. by rewrite <-app_assoc.
           ++ intros Hok. by rewrite (Hn Hok).
        -- exists 1%nat. cbn. split; [by rewrite take_0|done].
      * exists 0%nat. cbn. rewrite app_nil_r, set_calls_id. done.
    + destruct (ApolloSubscriber.action s None) as [[]|e].
      * match goal with |- context [for_each l notify_one ?st'] =>
          destruct (IH st') as (n & Hst & Hn) end.
        exists (S n). split.
        -- rewrite Hst. cbn. by rewrite <-app_assoc.
        -- intros Hok. by rewrite (Hn Hok).
      * exists 1%nat. cbn. split; [by rewrite take_0|done].
Qed.

Lemma notify_calls st :
  ∃ n, (notify st).2 =
         set_calls (calls st ++ take n (notifications (configs st) (sorted (_subscribers st))))
           (set_subscribers (sorted (_subscribers st)) st)
       ∧ ((notify st).1 = Ok () → n = length (_subscribers st)).
Proof.
  unfold notify. run.
  destruct (notify_loop (sorted (_subscribers st))
              (set_subscribers (sorted (_subscribers st)) st)) as (n & Hst & Hn).
  exists n. split.
  - exact Hst.
  - intros Hok. rewrite (Hn Hok). by rewrite sorted_perm.
Qed.



(** ** Cache update and diff *)

Lemma set_configs_id st : set_configs (configs st) st = st.
Proof. by destruct st. Qed.

Lemma update_item_run ns k v cfg st :
  configs st !! ns = Some cfg →
  update_item ns (k, v) st
  = (Ok (), set_configs
              (<[ns := <[k := ApolloValue.mk v (changed (cfg !! k) v)]> cfg]> (configs st)) st).
Proof.
  intros Hcfg. unfold update_item, set_config_item, changed. run. rewrite Hcfg.
  destruct (cfg !! k) as [cur|]; [destruct (py_eqb _ _)|];
    cbn; by rewrite Hcfg.
Qed.

Lemma update_loop ns l : ∀ cfg st,
  configs st !! ns = Some cfg →
  for_each l (update_item ns) st
  = (Ok (), set_configs (<[ns := diff cfg l]> (configs st)) st).
Proof.
  induction l as [|[k v] l IH]; intros cfg st Hcfg.
  - cbn. by rewrite (insert_id _ _ _ Hcfg), set_configs_id.
  - rewrite for_each_cons, (update_item_run _ _ _ _ _ Hcfg).
    erewrite IH; [|cbn; apply lookup_insert_eq].
    cbn. by rewrite insert_insert_eq.
Qed.

Lemma update_run resp ns st : update resp ns st = notify (diffed resp ns st).
Proof.
  unfold update, diffed. run.
  destruct (configs st !! ns) as [cfg|] eqn:Hcfg.
  - rewrite bool_decide_eq_false_2 by (rewrite elem_of_dom, Hcfg; intros []; eauto).
    run. by rewrite (update_loop _ _ _ _ Hcfg).
  - rewrite bool_decide_eq_true_2 by (by apply not_elem_of_dom).
    run. erewrite update_loop; [|cbn; apply lookup_insert_eq].
    cbn. by rewrite insert_insert_eq.
Qed.

Lemma diff_lookup l : ∀ cfg k,
  NoDup (l.*1) →
  diff cfg l !! k
  = match (list_to_map l : gmap string pyval) !! k with
    | Some v => Some (ApolloValue.mk v (changed (cfg !! k) v))
    | None => cfg !! k
    end.
Proof.
  induction l as [|[k0 v0] l IH]; intros cfg k Hnd; [done|].
  rewrite fmap_cons in Hnd. apply NoDup_cons in Hnd as [Hk0 Hnd].
  change (diff cfg ((k0, v0) :: l))
    with (diff (<[k0 := ApolloValue.mk v0 (changed (cfg !! k0) v0)]> cfg) l).
  rewrite IH by done. rewrite list_to_map_cons.
  destruct (decide (k = k0)) as [->|Hne].
  - rewrite (not_elem_of_list_to_map_1 _ _ Hk0).
    by rewrite !lookup_insert_eq.
  - rewrite !(lookup_insert_ne _ k0 k) by done.
    done.
Qed.

(** What [update] leaves under a key of the namespace it is given. *)
Lemma update_entry resp ns st k :
  config_entry (update resp ns st).2 ns k
  = match ApolloServerResponse.config resp !! k with
    | Some v => Some (ApolloValue.mk v (changed (config_entry st ns k) v))
    | None => config_entry st ns k
    end.
Proof.
  rewrite update_run.
  destruct (notify_calls (diffed resp ns st)) as (n & -> & _).
  unfold config_entry, diffed. cbn. rewrite lookup_insert_eq. cbn.
  rewrite diff_lookup by apply NoDup_fst_map_to_list.
  rewrite list_to_map_to_list.
  by destruct (configs st !! ns).
Qed.

(** ** Python equality *)









(** * The claims *)

Lemma check_subscribers_run st :
  check_subscribers st
  = (if bool_decide (Forall (λ s, ApolloSubscriber.namespace s = Some (namespace st))
                       (_subscribers st))
     then Ok () else Raise ValueError, st).
Proof.
  unfold check_subscribers. run.
  induction (_subscribers st) as [|s l IH]; [done|].
  rewrite for_each_cons.
  destruct (decide (ApolloSubscriber.namespace s = Some (namespace st))) as [Hs|Hs].
  - rewrite bool_decide_eq_false_2 by (by intros []). run. rewrite IH.
    apply (f_equal (λ r, (r, st))).
    repeat case_bool_decide; try done.
    + exfalso. rewrite Forall_cons in *. tauto.
    + exfalso. rewrite Forall_cons in *. tauto.
  - rewrite bool_decide_eq_true_2 by done. run.
    rewrite bool_decide_eq_false_2; [done|].
    rewrite Forall_cons. tauto.
Qed.

(** C2 (the code breaks the claim): [add_subscriber] appends before it checks,
    so a subscriber of another namespace is answered with [ValueError] and yet
    stays in the registry. *)
Theorem add_subscriber_mismatch_is_kept subscriber st :
  ApolloSubscriber.namespace subscriber ≠ Some (namespace st) →
  add_subscriber subscriber st
  = (Raise ValueError, set_subscribers (_subscribers st ++ [subscriber]) st).
Proof.
  intros Hne. unfold add_subscriber. run. rewrite check_subscribers_run.
  cbn. rewrite bool_decide_eq_false_2; [done|].
  rewrite Forall_app, Forall_singleton. by intros [_ ?].
Qed.

Lemma add_subscriber_mismatch_is_kept_witness :
  add_subscriber (subscriber 1 "other") client0
  = (Raise ValueError, set_subscribers [subscriber 1 "other"] client0).
Proof. apply (add_subscriber_mismatch_is_kept (subscriber 1 "other") client0). done. Defined.



(** C4: a key the server's configuration does not hold keeps the entry it had,
    value and flag: [update] deletes nothing. *)
Theorem update_keeps_absent_keys server_response ns st k :
  ApolloServerResponse.config server_response !! k = None →
  config_entry (update server_response ns st).2 ns k = config_entry st ns k.
Proof. intros Hk. by rewrite update_entry, Hk. Qed.

Lemma update_keeps_absent_keys_witness :
  config_entry (update (response_of "r2" [("b", PStr "2")]) "application" client_a).2
    "application" "a"
  = Some (ApolloValue.mk (PStr "1") true).
Proof.
  rewrite (update_keeps_absent_keys (response_of "r2" [("b", PStr "2")]) "application"
             client_a "a"); by vm_compute.
Defined.






(** ** The server directory *)

Lemma get_service_conf_run st :
  get_service_conf st
  = (match net st (directory_url st) with
     | Raise e => Raise e
     | Ok response =>
         if negb (status_code response =? 200) then Raise ValueError
         else match json response with
              | Ok service_conf =>
                  if truthy service_conf then Ok service_conf else Raise ValueError
              | Raise _ => Raise ValueError
              end
     end, st).
Proof.
  unfold get_service_conf, http_get, directory_url. run.
  destruct (net st _) as [response|e]; [|done].
  destruct (negb _); [done|]. run.
  destruct (json response) as [service_conf|e]; [|done].
  by destruct (truthy service_conf).
Qed.

Lemma exclude_services_remaining exclude l :
  Forall (λ service, ∃ url, py_getitem service "homepageUrl" = Ok url) l →
  exclude_services exclude l = Ok (remaining exclude l).
Proof.
  unfold remaining. induction 1 as [|service l [url Hurl] _ IH]; [done|].
  cbn [exclude_services List.filter]. unfold kept at 1. rewrite Hurl, IH.
  by destruct (py_eqb url exclude).
Qed.

(** C8, as stated, fails: a body that is well-formed JSON but no list of
    endpoint descriptors, here an object that reports an error, is answered
    with [KeyError], not with the [ValueError] of the directory. *)
Lemma update_config_server_object_body :
  update_config_server PNone
    (with_directory 200 (Ok (PDict [("message", PStr "not found")])) client0)
  = (Raise KeyError,
     with_directory 200 (Ok (PDict [("message", PStr "not found")])) client0).
Proof. by vm_compute. Qed.

(** C8, amended: when the directory answers, [update_config_server] raises
    [ValueError] if the status is not 200, if the body is not JSON, or if it
    parses to an empty list (or another false value); on a list of endpoint
    descriptors it takes the first one left after those at a non-empty
    [exclude] are removed, stores its [homepageUrl] as the active endpoint and
    returns it. *)
Theorem update_config_server_selects_first exclude st response :
  net st (directory_url st) = Ok response →
  (status_code response ≠ 200 →
     update_config_server exclude st = (Raise ValueError, st))
  ∧ (status_code response = 200 →
     (∀ e, json response = Raise e →
        update_config_server exclude st = (Raise ValueError, st))
     ∧ (∀ v, json response = Ok v → truthy v = false →
        update_config_server exclude st = (Raise ValueError, st))
     ∧ (∀ l service rest url,
        json response = Ok (PList l) →
        Forall (λ s, ∃ u, py_getitem s "homepageUrl" = Ok u) l →
        (if truthy exclude then remaining exclude l else l) = service :: rest →
        py_getitem service "homepageUrl" = Ok url →
        update_config_server exclude st = (Ok url, set_config_server_url url st))).
Proof.
  intros Hnet. unfold update_config_server. run.
  rewrite get_service_conf_run, Hnet. cbn [fst snd].
  split; [|intros H200; split; [|split]].
  - intros Hne. by rewrite (proj2 (Z.eqb_neq _ _) Hne).
  - intros e He. by rewrite H200, He.
  - intros v Hv Hfalse. by rewrite H200, Hv, Hfalse.
  - intros l service rest url Hl Hdesc Hsel Hurl.
    rewrite H200, Hl. cbn [Z.eqb Pos.eqb negb].
    assert (Htrue : truthy (PList l) = true).
    { destruct l as [|x l']; [|done].
      by destruct (truthy exclude). }
    rewrite Htrue.
    destruct (truthy exclude).
    + run. cbn [py_iter]. rewrite (exclude_services_remaining _ _ Hdesc).
      rewrite Hsel. cbn [py_first]. by rewrite Hurl.
    + run. rewrite Hsel. cbn [py_first]. by rewrite Hurl.
Qed.

Lemma update_config_server_selects_first_witness :
  update_config_server (PStr "http://a:8080/")
    (with_directory 200
       (Ok (PList [endpoint "http://a:8080/"; endpoint "http://b:8080/"])) client0)
  = (Ok (PStr "http://b:8080/"),
     set_config_server_url (PStr "http://b:8080/")
       (with_directory 200
          (Ok (PList [endpoint "http://a:8080/"; endpoint "http://b:8080/"])) client0)).
Proof.
  refine (proj2 (proj2 (proj2 (update_config_server_selects_first
            (PStr "http://a:8080/")
            (with_directory 200
               (Ok (PList [endpoint "http://a:8080/"; endpoint "http://b:8080/"]))
               client0)
            {| status_code := 200;
               json := Ok (PList [endpoint "http://a:8080/"; endpoint "http://b:8080/"]) |}
            _) _))
          [endpoint "http://a:8080/"; endpoint "http://b:8080/"]
          (endpoint "http://b:8080/") [] (PStr "http://b:8080/") _ _ _ _);
    try (by vm_compute).
  repeat constructor; eexists; by vm_compute.
Defined.

(** C9, as stated, fails: an [exclude] that is not [None] but is the empty
    string does not pass [if exclude:], nothing is filtered, and the call
    returns the first entry. *)
Lemma update_config_server_empty_exclude :
  update_config_server (PStr "")
    (with_directory 200 (Ok (PList [endpoint ""])) client0)
  = (Ok (PStr ""),
     set_config_server_url (PStr "")
       (with_directory 200 (Ok (PList [endpoint ""])) client0)).
Proof. by vm_compute. Qed.

(** C9, amended: with an [exclude] that is true as a condition (a non-empty
    string), and a directory that answers a non-empty list whose entries all
    have that [homepageUrl], the filter leaves nothing and indexing its first
    element raises [IndexError]; the emptiness test of [get_service_conf] ran
    before the filter. *)
Theorem update_config_server_all_excluded exclude st response l :
  truthy exclude = true →
  net st (directory_url st) = Ok response →
  status_code response = 200 →
  json response = Ok (PList l) →
  l ≠ [] →
  Forall (λ s, ∃ u, py_getitem s "homepageUrl" = Ok u ∧ py_eqb u exclude = true) l →
  update_config_server exclude st = (Raise IndexError, st).
Proof.
  intros Hex Hnet H200 Hl Hne Hall. unfold update_config_server. run.
  rewrite get_service_conf_run, Hnet, H200, Hl. cbn [fst snd Z.eqb Pos.eqb negb].
  assert (Htrue : truthy (PList l) = true) by (by destruct l).
  rewrite Htrue, Hex. run. cbn [py_iter].
  rewrite exclude_services_remaining
    by (eapply Forall_impl; [exact Hall|]; intros s (u & Hu & _); eauto).
  assert (Hnone : remaining exclude l = []).
  { unfold remaining. clear Hne Hl Htrue.
    induction Hall as [|s l' (u & Hu & Heq) _ IH]; [done|].
    cbn [List.filter]. unfold kept at 1. by rewrite Hu, Heq. }
  by rewrite Hnone.
Qed.

Lemma update_config_server_all_excluded_witness :
  update_config_server (PStr "http://a:8080/")
    (with_directory 200 (Ok (PList [endpoint "http://a:8080/"])) client0)
  = (Raise IndexError,
     with_directory 200 (Ok (PList [endpoint "http://a:8080/"])) client0).
Proof.
  apply (update_config_server_all_excluded (PStr "http://a:8080/")
           (with_directory 200 (Ok (PList [endpoint "http://a:8080/"])) client0)
           {| status_code := 200; json := Ok (PList [endpoint "http://a:8080/"]) |}
           [endpoint "http://a:8080/"]); try (by vm_compute).
  repeat constructor. eexists. by vm_compute.
Defined.

(** ** The read API *)

Lemma get_value_run key default_val ns st :
  get_value key default_val ns st
  = (Ok match _cache st !! ns with
        | Some (PDict d) => from_option id default_val (assoc key d)
        | _ => default_val
        end, st).
Proof.
  unfold get_value. run.
  destruct (_cache st !! ns) as [[]|]; done.
Qed.

(** C10, as stated, fails: a stored value that is the JSON text of [null]
    parses, and [get_json_value] returns the [None] it parses to, whatever the
    default. *)
Lemma get_json_value_of_null :
  get_json_value "k" (PDict [("x", PInt 1)]) "application"
    (client_cached (PDict [("k", PStr "null")]))
  = (Ok PNone, client_cached (PDict [("k", PStr "null")])).
Proof. by vm_compute. Qed.

(** C10, amended: [get_json_value] looks the key up with no default of its
    own; when the value found is no string (the key or the namespace is
    absent, or what is stored is no string), or is a string that [json.loads]
    rejects with [JSONDecodeError], it returns [default_val] if that is true as
    a condition and an empty dict otherwise, which is never [None]; when
    [json.loads] parses the string it returns the value parsed, whatever it
    is; and when [json.loads] raises another exception, it lets it out. *)
Theorem get_json_value_falls_back key default_val ns st :
  let val := (get_value key PNone ns st).1 in
  let fallback := if truthy default_val then default_val else PDict [] in
  ((∀ s, val = Ok (PStr s) → json_loads st s = Raise JSONDecodeError) →
     get_json_value key default_val ns st = (Ok fallback, st))
  ∧ (∀ s v, val = Ok (PStr s) → json_loads st s = Ok v →
     get_json_value key default_val ns st = (Ok v, st))
  ∧ (∀ s e, val = Ok (PStr s) → json_loads st s = Raise e →
     e ≠ JSONDecodeError → e ≠ TypeError →
     get_json_value key default_val ns st = (Raise e, st))
  ∧ fallback ≠ PNone.
Proof.
  cbn zeta. unfold get_json_value. run. rewrite get_value_run. cbn [fst snd].
  set (val := match _cache st !! ns with
              | Some (PDict d) => from_option id PNone (assoc key d)
              | _ => PNone
              end).
  split; [|split; [|split]].
  - intros Hfail. destruct val as [| b | z | f | s | l | d]; cbn [py_json_loads]; run;
      rewrite ?(Hfail s eq_refl); by rewrite bool_decide_eq_true_2 by set_solver.
  - intros s v [= ->] Hv. cbn [py_json_loads]. run. by rewrite Hv.
  - intros s e [= ->] He Hj Ht. cbn [py_json_loads]. run. rewrite He.
    rewrite bool_decide_eq_false_2; [done|].
    rewrite !elem_of_cons, elem_of_nil. by intros [|[|]].
  - destruct (truthy default_val) eqn:Htrue; [|done].
    by intros ->.
Qed.

Lemma get_json_value_falls_back_witness :
  get_json_value "k" PNone "application" (client_cached (PDict [("k", PStr "{oops")]))
  = (Ok (PDict []), client_cached (PDict [("k", PStr "{oops")])).
Proof.
  apply (get_json_value_falls_back "k" PNone "application"
           (client_cached (PDict [("k", PStr "{oops")]))).
  intros s [= <-]. by vm_compute.
Defined.

(** ** Strings *)

Lemma append_cons x (a b : string) : String x a +:+ b = String x (a +:+ b).
Proof. reflexivity. Qed.

Lemma append_nil_l (b : string) : "" +:+ b = b.
Proof. reflexivity. Qed.

Lemma append_assoc (a b c : string) : (a +:+ b) +:+ c = a +:+ (b +:+ c).
Proof.
  induction a as [|x a IH]; [done|].
  by rewrite !append_cons, IH.
Qed.

Lemma append_nil_r (a : string) : a +:+ "" = a.
Proof.
  induction a as [|x a IH]; [done|].
  by rewrite append_cons, IH.
Qed.

Lemma length_append (a b : string) :
  String.length (a +:+ b) = (String.length a + String.length b)%nat.
Proof.
  induction a as [|x a IH]; [done|].
  rewrite append_cons. cbn [String.length]. by rewrite IH.
Qed.

(** ** The local snapshot store *)

Lemma cache_file_path_run ns st : cache_file_path ns st = (Ok (snapshot_path st ns), st).
Proof. done. Qed.

Lemma get_local_file_cache_run ns st :
  get_local_file_cache ns st = (local_snapshot st ns, st).
Proof.
  unfold get_local_file_cache, read_json, local_snapshot. run.
  rewrite cache_file_path_run. cbn [fst snd].
  destruct (files st !! snapshot_path st ns) as [text|]; run.
  - destruct (json_loads st text) as [data|e]; [done|].
    by case_bool_decide.
  - rewrite bool_decide_eq_true_2; [done|]. apply list_elem_of_here.
Qed.

(** A write in full: the file is opened, [json.dumps] gives the text, the text
    is written and the key recorded; a write that fails in [open] changes
    nothing, and one that fails in [json.dumps] leaves the file empty. *)
Lemma update_local_file_cache_run release_key data ns st :
  update_local_file_cache release_key data ns st
  = if negb (py_eqb (from_option id PNone (_hash st !! ns)) release_key)
    then match open_w st (snapshot_path st ns) with
         | Raise e => (Raise e, st)
         | Ok _ =>
             match json_dumps st data with
             | Raise e => (Raise e, set_files (<[snapshot_path st ns := ""]> (files st)) st)
             | Ok text =>
                 (Ok (), set_hash (<[ns := release_key]> (_hash st))
                           (set_files (<[snapshot_path st ns := text]> (files st)) st))
             end
         end
    else (Ok (), st).
Proof.
  unfold update_local_file_cache, open_write. run.
  destruct (negb _); [|done]. rewrite cache_file_path_run. cbn [fst snd].
  destruct (open_w st (snapshot_path st ns)) as [[]|e]; [|done].
  cbn [json_dumps set_files].
  destruct (json_dumps st data) as [text|e]; [|done].
  cbn. by rewrite insert_insert_eq.
Qed.




(** ** Fetch or fall back *)

Lemma update_config_server_cache exclude st :
  _cache (update_config_server exclude st).2 = _cache st.
Proof.
  unfold update_config_server. run. rewrite get_service_conf_run. cbn [fst snd].
  destruct (match net st (directory_url st) with Ok _ => _ | Raise e => _ end)
    as [service_conf|e]; [|done].
  destruct (truthy exclude); run.
  - destruct (py_iter service_conf) as [services|e]; [|done].
    destruct (exclude_services exclude services) as [kept|e]; [|done].
    destruct (py_first (PList kept)) as [service|e]; [|done].
    by destruct (py_getitem service "homepageUrl").
  - destruct (py_first service_conf) as [service|e]; [|done].
    by destruct (py_getitem service "homepageUrl").
Qed.

(** The [except] branch: when the fallback read gives [data], it is cached
    and the failover runs; when the read raises, nothing is done. *)
Lemma recover_run ns st :
  recover ns st
  = match local_snapshot st ns with
    | Ok data =>
        match update_config_server (_config_server_url st) (fallen_back ns data st) with
        | (Ok _, st') => (Ok (), st')
        | (Raise e, st') => (Raise e, st')
        end
    | Raise e => (Raise e, st)
    end.
Proof.
  unfold recover, update_cache, fallen_back. run. rewrite get_local_file_cache_run.
  cbn [fst snd]. destruct (local_snapshot st ns) as [data|e]; [|done].
  by destruct (update_config_server _ _) as [[url|e] st'].
Qed.

Lemma fetch_config_by_namespace_run ns st :
  fetch_config_by_namespace ns st
  = match net st (fetch_url st ns) with
    | Raise _ => recover ns st
    | Ok response =>
        if status_code response =? 200
        then match json response with
             | Ok (PDict d) =>
                 let configurations := from_option id (PDict []) (assoc "configurations" d) in
                 let release_key := from_option id (PStr (clock st)) (assoc "releaseKey" d) in
                 match update_local_file_cache release_key configurations ns
                         (set_cache (<[ns := configurations]> (_cache st)) st) with
                 | (Ok _, st') => (Ok (), st')
                 | (Raise _, st') => recover ns st'
                 end
             | _ => recover ns st
             end
        else match local_snapshot st ns with
             | Ok data => (Ok (), fallen_back ns data st)
             | Raise e => (Raise e, st)
             end
    end.
Proof.
  unfold fetch_config_by_namespace, http_get, fetch_url. fold (recover ns).
  unfold update_cache at 1 2. run.
  destruct (net st _) as [response|e]; [|done].
  destruct (status_code response =? 200).
  - run. destruct (json response) as [[| b | z | f | s | l | d]|e]; run;
      cbn [py_get]; try done.
    by destruct (update_local_file_cache _ _ _ _) as [[[]|e] st'].
  - run. rewrite get_local_file_cache_run. cbn [fst snd].
    destruct (local_snapshot st ns) as [data|e] eqn:Hread; [done|].
    by rewrite recover_run, Hread.
Qed.

Lemma recover_cache ns st data :
  local_snapshot st ns = Ok data →
  _cache (recover ns st).2 !! ns = Some data.
Proof.
  intros Hread. rewrite recover_run, Hread.
  pose proof (update_config_server_cache (_config_server_url st) (fallen_back ns data st))
    as Hc.
  destruct (update_config_server _ _) as [[url|e] st']; cbn [fst snd] in *;
    rewrite Hc; unfold fallen_back; cbn; apply lookup_insert_eq.
Qed.

Lemma for_each_preserves {A} (P : state → Prop) (body : A → M ()) l :
  (∀ x st, P st → P (body x st).2) →
  ∀ st, P st → P (for_each l body st).2.
Proof.
  intros Hbody. induction l as [|x l IH]; intros st HP; [done|].
  rewrite for_each_cons. specialize (Hbody x st HP).
  destruct (body x st) as [[[]|e] st']; [by apply IH|done].
Qed.





(** No cache update is assured, not by [fetch_configuration] either: with a
    server that answers 500 and a snapshot that holds an integer of 4301
    digits, the fallback read raises [ValueError], the load of the cache
    directory meets the same file, and the cache stays empty. *)
Lemma fetch_configuration_without_cache_update :
  fetch_config_by_namespace "application" unreadable_snapshot
  = (Raise ValueError, unreadable_snapshot)
  ∧ fetch_configuration unreadable_snapshot = (Ok (), unreadable_snapshot)
  ∧ _cache unreadable_snapshot = ∅.
Proof. by vm_compute. Qed.

(** * Further properties of the client *)

(** ** The read API over the cache *)

(** When the namespace is cached as a dict that holds the key, [get_value]
    returns the value it holds (also [None]), never the default, and changes
    nothing; in particular it reads back what [update_cache] installed. *)
Theorem get_value_reads_update_cache key default_val ns d v st :
  assoc key d = Some v →
  get_value key default_val ns (update_cache ns (PDict d) st).2
  = (Ok v, (update_cache ns (PDict d) st).2).
Proof.
  intros Hv. rewrite get_value_run. unfold update_cache, modify. cbn.
  by rewrite lookup_insert_eq, Hv.
Qed.

Lemma get_value_reads_update_cache_witness :
  get_value "timeout" (PStr "30") "application"
    (update_cache "application" (PDict [("timeout", PNone)]) client0).2
  = (Ok PNone, (update_cache "application" (PDict [("timeout", PNone)]) client0).2).
Proof.
  by apply (get_value_reads_update_cache "timeout" (PStr "30") "application"
              [("timeout", PNone)] PNone client0).
Defined.

(** [get_value] never raises: it returns the default, and changes nothing,
    when the namespace is not cached, when what is cached for it is no dict
    (a snapshot file may hold any JSON value), and when the dict lacks the
    key. *)
Theorem get_value_defaults key default_val ns st :
  (_cache st !! ns = None
   ∨ (∃ x, _cache st !! ns = Some x ∧ ∀ d, x ≠ PDict d)
   ∨ (∃ d, _cache st !! ns = Some (PDict d) ∧ assoc key d = None)) →
  get_value key default_val ns st = (Ok default_val, st).
Proof.
  rewrite get_value_run. intros [-> | [(x & -> & Hx) | (d & -> & ->)]]; [done| |done].
  destruct x; try done. by destruct (Hx d).
Qed.

Lemma get_value_defaults_witness :
  get_value "timeout" (PStr "30") "application" (client_cached (PList [PInt 1]))
  = (Ok (PStr "30"), client_cached (PList [PInt 1])).
Proof.
  apply (get_value_defaults "timeout" (PStr "30") "application"
           (client_cached (PList [PInt 1]))).
  right. left. exists (PList [PInt 1]). split; [by vm_compute|done].
Defined.

(** ** The local snapshot store, continued *)

(** A snapshot file that is missing, or in which [json.load] finds no JSON
    ([JSONDecodeError]), reads as an empty dict: [get_local_file_cache] does
    not raise and changes nothing. *)
Theorem get_local_file_cache_missing_or_corrupt ns st :
  (files st !! snapshot_path st ns = None
   ∨ ∃ text, files st !! snapshot_path st ns = Some text
             ∧ json_loads st text = Raise JSONDecodeError) →
  get_local_file_cache ns st = (Ok (PDict []), st).
Proof.
  rewrite get_local_file_cache_run. unfold local_snapshot.
  intros [-> | (text & -> & ->)]; [done|].
  rewrite bool_decide_eq_true_2; [done|]. apply list_elem_of_further, list_elem_of_here.
Qed.

Lemma get_local_file_cache_missing_or_corrupt_witness :
  get_local_file_cache "application"
    (set_files {["/cache/app_configuration_application.txt" := "{oops"]} client0)
  = (Ok (PDict []),
     set_files {["/cache/app_configuration_application.txt" := "{oops"]} client0).
Proof.
  apply (get_local_file_cache_missing_or_corrupt "application"
           (set_files {["/cache/app_configuration_application.txt" := "{oops"]} client0)).
  right. exists "{oops". by vm_compute.
Defined.

(** A snapshot file from which [json.load] raises another exception than
    [JSONDecodeError] (a [ValueError] for an integer of too many digits, a
    [RecursionError], a [UnicodeDecodeError]) makes [get_local_file_cache]
    raise it: the handler names [FileNotFoundError] and [JSONDecodeError]
    alone. *)
Theorem get_local_file_cache_lets_other_errors_out ns text e st :
  files st !! snapshot_path st ns = Some text →
  json_loads st text = Raise e →
  e ≠ JSONDecodeError → e ≠ FileNotFoundError →
  get_local_file_cache ns st = (Raise e, st).
Proof.
  intros Hfile Htext Hj Hf. rewrite get_local_file_cache_run. unfold local_snapshot.
  rewrite Hfile, Htext. rewrite bool_decide_eq_false_2; [done|].
  rewrite !elem_of_cons, elem_of_nil. by intros [|[|]].
Qed.

Lemma get_local_file_cache_lets_other_errors_out_witness :
  get_local_file_cache "application" unreadable_snapshot
  = (Raise ValueError, unreadable_snapshot).
Proof.
  by apply (get_local_file_cache_lets_other_errors_out "application" (nines 4301)
              ValueError unreadable_snapshot).
Defined.

(** After a write that went through, a second write under the same release
    key is skipped, whatever the data, also data [json.dumps] would refuse:
    the client is as the first write left it and the file holds the text of
    the first data. The release key is one that equals itself. *)
Theorem snapshot_same_release_key_is_skipped release_key data1 data2 ns text st :
  py_eqb release_key release_key = true →
  py_eqb (from_option id PNone (_hash st !! ns)) release_key = false →
  open_w st (snapshot_path st ns) = Ok () →
  json_dumps st data1 = Ok text →
  let st1 := (update_local_file_cache release_key data1 ns st).2 in
  update_local_file_cache release_key data2 ns st1 = (Ok (), st1)
  ∧ files st1 !! snapshot_path st ns = Some text.
Proof.
  intros Hrefl Hkey Hopen Hdumps. cbn zeta.
  rewrite (update_local_file_cache_run release_key data1), Hkey, Hopen, Hdumps.
  cbn [negb snd]. split.
  - rewrite update_local_file_cache_run. cbn [_hash set_hash].
    by rewrite lookup_insert_eq; cbn; rewrite Hrefl.
  - cbn. apply lookup_insert_eq.
Qed.

Lemma snapshot_same_release_key_is_skipped_witness :
  files (update_local_file_cache (PStr "r1") (PInt huge) "application"
           (update_local_file_cache (PStr "r1") (PDict [("x", PStr "1")]) "application"
              client0).2).2
    !! "/cache/app_configuration_application.txt"
  = Some ("{" +:+ quoted "x" +:+ ": " +:+ quoted "1" +:+ "}").
Proof.
  destruct (snapshot_same_release_key_is_skipped (PStr "r1") (PDict [("x", PStr "1")])
              (PInt huge) "application"
              ("{" +:+ quoted "x" +:+ ": " +:+ quoted "1" +:+ "}") client0)
    as [Hskip Hfile].
  - done.
  - done.
  - done.
  - by vm_compute.
  - rewrite Hskip. exact Hfile.
Defined.

(** A write that fails in [json.dumps] has emptied the snapshot file by then:
    the exception comes out, the release key is not recorded, and the
    snapshot written before is lost; the next fallback read finds no JSON in
    the empty file and gives an empty dict. *)
Theorem failed_write_empties_snapshot release_key data ns e st :
  py_eqb (from_option id PNone (_hash st !! ns)) release_key = false →
  open_w st (snapshot_path st ns) = Ok () →
  json_dumps st data = Raise e →
  let st' := set_files (<[snapshot_path st ns := ""]> (files st)) st in
  update_local_file_cache release_key data ns st = (Raise e, st')
  ∧ (json_loads st "" = Raise JSONDecodeError →
     get_local_file_cache ns st' = (Ok (PDict []), st')).
Proof.
  intros Hkey Hopen Hdumps. cbn zeta. split.
  - by rewrite update_local_file_cache_run, Hkey, Hopen, Hdumps.
  - intros Hempty. rewrite get_local_file_cache_run. unfold local_snapshot.
    cbn [files json_loads set_files].
    change (snapshot_path (set_files _ st) ns) with (snapshot_path st ns).
    rewrite lookup_insert_eq, Hempty.
    rewrite bool_decide_eq_true_2; [done|]. apply list_elem_of_further, list_elem_of_here.
Qed.

Lemma failed_write_empties_snapshot_witness :
  get_local_file_cache "application"
    (update_local_file_cache (PStr "r2") (PInt huge) "application" stale_server).2
  = (Ok (PDict []),
     (update_local_file_cache (PStr "r2") (PInt huge) "application" stale_server).2).
Proof.
  destruct (failed_write_empties_snapshot (PStr "r2") (PInt huge) "application" ValueError
              stale_server eq_refl eq_refl eq_refl) as [Hwrite Hread].
  rewrite Hwrite. cbn [snd]. by apply Hread.
Defined.

(** ** Fetch, continued *)

Lemma fetch_success_run ns st response d :
  net st (fetch_url st ns) = Ok response →
  status_code response = 200 →
  json response = Ok (PDict d) →
  fetch_config_by_namespace ns st
  = match update_local_file_cache
            (from_option id (PStr (clock st)) (assoc "releaseKey" d))
            (from_option id (PDict []) (assoc "configurations" d)) ns
            (set_cache (<[ns := from_option id (PDict []) (assoc "configurations" d)]>
                          (_cache st)) st) with
    | (Ok _, st') => (Ok (), st')
    | (Raise _, st') => recover ns st'
    end.
Proof.
  intros Hnet H200 Hjson.
  rewrite fetch_config_by_namespace_run, Hnet, H200, Hjson.
  by change (200 =? 200) with true.
Qed.

(** A fetch whose snapshot is written: the state it leaves. *)
Lemma fetch_success_written ns st response d text :
  net st (fetch_url st ns) = Ok response →
  status_code response = 200 →
  json response = Ok (PDict d) →
  py_eqb (from_option id PNone (_hash st !! ns))
    (from_option id (PStr (clock st)) (assoc "releaseKey" d)) = false →
  open_w st (snapshot_path st ns) = Ok () →
  json_dumps st (from_option id (PDict []) (assoc "configurations" d)) = Ok text →
  fetch_config_by_namespace ns st
  = (Ok (),
     set_hash (<[ns := from_option id (PStr (clock st)) (assoc "releaseKey" d)]> (_hash st))
       (set_files (<[snapshot_path st ns := text]> (files st))
          (set_cache (<[ns := from_option id (PDict []) (assoc "configurations" d)]>
                        (_cache st)) st))).
Proof.
  intros Hnet H200 Hjson Hkey Hopen Hdumps.
  rewrite (fetch_success_run ns st response d Hnet H200 Hjson).
  rewrite update_local_file_cache_run. cbn [_hash set_cache open_w json_dumps files].
  change (snapshot_path (set_cache _ st) ns) with (snapshot_path st ns).
  by rewrite Hkey, Hopen, Hdumps.
Qed.

(** A successful fetch (status 200, a JSON object as body) whose release key
    (the clock's reading if the body has none) is the one recorded for the
    namespace writes nothing and caches the object's [configurations] (an
    empty dict if it has none). With a new release key, and a snapshot file
    that opens and a configuration [json.dumps] accepts, it returns normally,
    caches the configuration, writes the text of [json.dumps] to the snapshot
    file and records the key; the snapshot then reads back as the
    configuration when [json.loads] reads it from its text. *)
Theorem fetch_success_caches_and_persists ns st response d :
  net st (fetch_url st ns) = Ok response →
  status_code response = 200 →
  json response = Ok (PDict d) →
  let configurations := from_option id (PDict []) (assoc "configurations" d) in
  let release_key := from_option id (PStr (clock st)) (assoc "releaseKey" d) in
  let st' := (fetch_config_by_namespace ns st).2 in
  (py_eqb (from_option id PNone (_hash st !! ns)) release_key = true →
     fetch_config_by_namespace ns st
     = (Ok (), set_cache (<[ns := configurations]> (_cache st)) st))
  ∧ ∀ text,
      py_eqb (from_option id PNone (_hash st !! ns)) release_key = false →
      open_w st (snapshot_path st ns) = Ok () →
      json_dumps st configurations = Ok text →
      (fetch_config_by_namespace ns st).1 = Ok ()
      ∧ _cache st' !! ns = Some configurations
      ∧ files st' !! snapshot_path st ns = Some text
      ∧ _hash st' !! ns = Some release_key
      ∧ (json_loads st text = Ok configurations →
         get_local_file_cache ns st' = (Ok configurations, st')).
Proof.
  intros Hnet H200 Hjson. cbn zeta. split.
  - intros Hkey. rewrite (fetch_success_run ns st response d Hnet H200 Hjson).
    rewrite update_local_file_cache_run. cbn [_hash set_cache]. by rewrite Hkey.
  - intros text Hkey Hopen Hdumps.
    rewrite (fetch_success_written ns st response d text Hnet H200 Hjson Hkey Hopen Hdumps).
    cbn [fst snd]. split; [done|]. split; [cbn; apply lookup_insert_eq|].
    split; [cbn; apply lookup_insert_eq|]. split; [cbn; apply lookup_insert_eq|].
    intros Hloads. rewrite get_local_file_cache_run. f_equal. unfold local_snapshot.
    cbn [files json_loads set_hash set_files set_cache].
    match goal with |- context [snapshot_path ?s ns] =>
      change (snapshot_path s ns) with (snapshot_path st ns) end.
    by rewrite lookup_insert_eq, Hloads.
Qed.

Lemma fetch_success_caches_and_persists_witness :
  _cache (fetch_config_by_namespace "application" fresh_server).2 !! "application"
  = Some (PDict [("x", PStr "1")])
  ∧ files (fetch_config_by_namespace "application" fresh_server).2
      !! "/cache/app_configuration_application.txt"
    = Some ("{" +:+ quoted "x" +:+ ": " +:+ quoted "1" +:+ "}").
Proof.
  destruct (proj2 (fetch_success_caches_and_persists "application" fresh_server
                     {| status_code := 200;
                        json := Ok (PDict [("releaseKey", PStr "r1");
                                           ("configurations", PDict [("x", PStr "1")])]) |}
                     [("releaseKey", PStr "r1"); ("configurations", PDict [("x", PStr "1")])]
                     eq_refl eq_refl eq_refl)
              ("{" +:+ quoted "x" +:+ ": " +:+ quoted "1" +:+ "}")
              eq_refl eq_refl eq_refl)
    as (_ & Hcache & Hfile & _).
  split; [exact Hcache|exact Hfile].
Defined.

(** Last known good: after a fetch that went through under a new release key,
    snapshot written, a fetch that fails on whatever network the client is on
    then (server down, status other than 200, malformed body) leaves the
    namespace cached with the configuration of the fetch that went through,
    as [json.loads] reads it back from the text written. *)
Theorem fetch_outage_restores_last_fetch ns st response d text network :
  net st (fetch_url st ns) = Ok response →
  status_code response = 200 →
  json response = Ok (PDict d) →
  let configurations := from_option id (PDict []) (assoc "configurations" d) in
  let release_key := from_option id (PStr (clock st)) (assoc "releaseKey" d) in
  let st1 := with_net network (fetch_config_by_namespace ns st).2 in
  py_eqb (from_option id PNone (_hash st !! ns)) release_key = false →
  open_w st (snapshot_path st ns) = Ok () →
  json_dumps st configurations = Ok text →
  json_loads st text = Ok configurations →
  remote_fetch_fails st1 ns →
  _cache (fetch_config_by_namespace ns st1).2 !! ns = Some configurations.
Proof.
  intros Hnet H200 Hjson. cbn zeta. intros Hkey Hopen Hdumps Hloads Hfail.
  rewrite (fetch_success_written ns st response d text Hnet H200 Hjson Hkey Hopen Hdumps)
    in Hfail |- *.
  cbn [snd] in Hfail |- *.
  match goal with |- context [fetch_config_by_namespace ns ?s] => set (st1 := s) in * end.
  assert (Hread : local_snapshot st1 ns
                  = Ok (from_option id (PDict []) (assoc "configurations" d))).
  { unfold local_snapshot, st1. cbn [files json_loads with_net set_hash set_files set_cache].
    match goal with |- context [snapshot_path ?s ns] =>
      change (snapshot_path s ns) with (snapshot_path st ns) end.
    by rewrite lookup_insert_eq, Hloads. }
  unfold remote_fetch_fails in Hfail.
  rewrite fetch_config_by_namespace_run.
  destruct (net st1 (fetch_url st1 ns)) as [response'|e]; [|by apply recover_cache].
  destruct (Z.eqb_spec (status_code response') 200) as [H200'|Hne].
  - destruct Hfail as [Hne|Hbody]; [done|].
    destruct (json response') as [[| b | z | f | s | l | d']|e]; try done;
      by apply recover_cache.
  - rewrite Hread. unfold fallen_back. cbn. apply lookup_insert_eq.
Qed.

Lemma fetch_outage_restores_last_fetch_witness :
  _cache (fetch_config_by_namespace "application"
            (with_net offline (fetch_config_by_namespace "application" fresh_server).2)).2
    !! "application"
  = Some (PDict [("x", PStr "1")]).
Proof.
  refine (fetch_outage_restores_last_fetch "application" fresh_server
            {| status_code := 200;
               json := Ok (PDict [("releaseKey", PStr "r1");
                                  ("configurations", PDict [("x", PStr "1")])]) |}
            [("releaseKey", PStr "r1"); ("configurations", PDict [("x", PStr "1")])]
            ("{" +:+ quoted "x" +:+ ": " +:+ quoted "1" +:+ "}")
            offline _ _ _ _ _ _ _ _); by vm_compute.
Defined.

(** A fetch that the server answered is thrown away when the snapshot file
    cannot be opened for writing (its directory is gone, or the name of the
    namespace has a slash): the [except] branch runs as after a failed
    request, the cache ends with what the fallback read gives, not with the
    configuration fetched, and the failover is run. *)
Theorem fetch_discarded_when_snapshot_unwritable ns st response d e data :
  net st (fetch_url st ns) = Ok response →
  status_code response = 200 →
  json response = Ok (PDict d) →
  py_eqb (from_option id PNone (_hash st !! ns))
    (from_option id (PStr (clock st)) (assoc "releaseKey" d)) = false →
  open_w st (snapshot_path st ns) = Raise e →
  (get_local_file_cache ns st).1 = Ok data →
  fetch_config_by_namespace ns st
  = match update_config_server (_config_server_url st) (fallen_back ns data st) with
    | (Ok _, st') => (Ok (), st')
    | (Raise e', st') => (Raise e', st')
    end
  ∧ _cache (fetch_config_by_namespace ns st).2 !! ns = Some data.
Proof.
  intros Hnet H200 Hjson Hkey Hopen Hread.
  rewrite get_local_file_cache_run in Hread. cbn [fst] in Hread.
  rewrite (fetch_success_run ns st response d Hnet H200 Hjson).
  rewrite update_local_file_cache_run. cbn [_hash set_cache open_w].
  change (snapshot_path (set_cache _ st) ns) with (snapshot_path st ns).
  rewrite Hkey, Hopen. cbn [negb].
  match goal with |- context [recover ns ?s] => set (st1 := s) end.
  assert (Hread1 : local_snapshot st1 ns = Ok data) by exact Hread.
  assert (Hback : fallen_back ns data st1 = fallen_back ns data st).
  { unfold fallen_back, st1. cbn. by rewrite insert_insert_eq. }
  split.
  - rewrite recover_run, Hread1. change (_config_server_url st1) with (_config_server_url st).
    by rewrite Hback.
  - by apply recover_cache.
Qed.

Lemma fetch_discarded_when_snapshot_unwritable_witness :
  fetch_config_by_namespace "a/b" slash_server
  = (Raise RequestException, fallen_back "a/b" (PDict []) slash_server).
Proof.
  rewrite (proj1 (fetch_discarded_when_snapshot_unwritable "a/b" slash_server
                    {| status_code := 200;
                       json := Ok (PDict [("releaseKey", PStr "r1");
                                          ("configurations", PDict [("x", PStr "1")])]) |}
                    [("releaseKey", PStr "r1"); ("configurations", PDict [("x", PStr "1")])]
                    FileNotFoundError (PDict [])
                    eq_refl eq_refl eq_refl eq_refl eq_refl eq_refl)).
  by vm_compute.
Defined.

(** Fallback to a seeded snapshot: when the server answers with a status other
    than 200 and [json.load] reads a dict with the key from the snapshot file,
    [fetch_configuration] returns normally and [get_value] then gives the
    snapshot's value, not the default. *)
Theorem fetch_configuration_serves_snapshot key default_val st response text d v :
  net st (fetch_url st (namespace st)) = Ok response →
  status_code response ≠ 200 →
  files st !! snapshot_path st (namespace st) = Some text →
  json_loads st text = Ok (PDict d) →
  assoc key d = Some v →
  (fetch_configuration st).1 = Ok ()
  ∧ (get_value key default_val (namespace st) (fetch_configuration st).2).1 = Ok v.
Proof.
  intros Hnet Hne Hfile Htext Hkey.
  unfold fetch_configuration. run.
  rewrite fetch_config_by_namespace_run, Hnet.
  rewrite (proj2 (Z.eqb_neq _ _) Hne).
  unfold local_snapshot. rewrite Hfile, Htext. cbn [fst snd].
  split; [done|]. rewrite get_value_run. cbn [fst].
  unfold fallen_back. cbn. by rewrite lookup_insert_eq, Hkey.
Qed.

Lemma fetch_configuration_serves_snapshot_witness :
  (get_value "x" (PStr "none") "application" (fetch_configuration stale_server).2).1
  = Ok (PStr "1").
Proof.
  refine (proj2 (fetch_configuration_serves_snapshot "x" (PStr "none") stale_server
            {| status_code := 500; json := Raise JSONDecodeError |}
            ("{" +:+ quoted "x" +:+ ": " +:+ quoted "1" +:+ "}")
            [("x", PStr "1")] (PStr "1") _ _ _ _ _)); by vm_compute.
Defined.

(** ** The server directory, continued *)

(** What [update_config_server] may change. *)
Lemma update_config_server_state exclude st :
  match update_config_server exclude st with
  | (Ok url, st') => st' = set_config_server_url url st
  | (Raise _, st') => st' = st
  end.
Proof.
  unfold update_config_server. run. rewrite get_service_conf_run. cbn [fst snd].
  destruct (match net st (directory_url st) with Ok _ => _ | Raise e => _ end)
    as [service_conf|e]; [|done].
  destruct (truthy exclude); run.
  - destruct (py_iter service_conf) as [services|e]; [|done].
    destruct (exclude_services exclude services) as [kept|e]; [|done].
    destruct (py_first (PList kept)) as [service|e]; [|done].
    by destruct (py_getitem service "homepageUrl").
  - destruct (py_first service_conf) as [service|e]; [|done].
    by destruct (py_getitem service "homepageUrl").
Qed.

(** Failover replaces [_config_server_url] and nothing else, and a selection
    that fails leaves the client as it was. The [HttpClient] keeps the base
    URL it was built with, so the next fetch asks the URL it asked before. *)
Theorem update_config_server_keeps_http_client exclude st ns :
  let st' := (update_config_server exclude st).2 in
  (∀ url, (update_config_server exclude st).1 = Ok url →
     st' = set_config_server_url url st)
  ∧ (∀ e, (update_config_server exclude st).1 = Raise e → st' = st)
  ∧ fetch_url st' ns = fetch_url st ns.
Proof.
  cbn zeta. pose proof (update_config_server_state exclude st) as Hst.
  destruct (update_config_server exclude st) as [[url|e] st']; subst st'; cbn [fst snd].
  - split; [by intros ? [= <-]|]. by split.
  - split; [done|]. by split.
Qed.

Lemma update_config_server_keeps_http_client_witness :
  fetch_url
    (update_config_server (PStr "http://a:8080/")
       (with_directory 200
          (Ok (PList [endpoint "http://a:8080/"; endpoint "http://b:8080/"])) client0)).2
    "application"
  = "http://a:8080/configs/app/default/application".
Proof.
  rewrite (proj2 (proj2 (update_config_server_keeps_http_client (PStr "http://a:8080/")
             (with_directory 200
                (Ok (PList [endpoint "http://a:8080/"; endpoint "http://b:8080/"])) client0)
             "application"))).
  by vm_compute.
Defined.

(** An error of the transport while the directory is asked (connection
    refused, timeout) comes out of [update_config_server] as it is: only what
    follows the request is turned into [ValueError]. *)
Theorem update_config_server_transport_error exclude st e :
  net st (directory_url st) = Raise e →
  update_config_server exclude st = (Raise e, st).
Proof.
  intros Hnet. unfold update_config_server. run.
  by rewrite get_service_conf_run, Hnet.
Qed.

Lemma update_config_server_transport_error_witness :
  update_config_server PNone client0 = (Raise RequestException, client0).
Proof. by apply (update_config_server_transport_error PNone client0 RequestException). Defined.

(** ** The subscriber registry, continued *)

(** [check_subscribers] accepts exactly the registries whose subscribers all
    carry the client's namespace, and never changes the client. *)
Theorem check_subscribers_accepts_iff st :
  ((check_subscribers st).1 = Ok ()
   ↔ Forall (λ s, ApolloSubscriber.namespace s = Some (namespace st)) (_subscribers st))
  ∧ ((check_subscribers st).1 = Ok () ∨ (check_subscribers st).1 = Raise ValueError)
  ∧ (check_subscribers st).2 = st.
Proof.
  rewrite check_subscribers_run. cbn [fst snd].
  case_bool_decide; split; try done; split; auto; try done.
Qed.

Lemma add_subscriber_run subscriber st :
  add_subscriber subscriber st
  = (if bool_decide (Forall (λ s, ApolloSubscriber.namespace s = Some (namespace st))
                       (_subscribers st ++ [subscriber]))
     then Ok () else Raise ValueError,
     set_subscribers (_subscribers st ++ [subscriber]) st).
Proof. unfold add_subscriber. run. by rewrite check_subscribers_run. Qed.

(** On a registry that is in order, a subscriber of the client's namespace is
    accepted and goes to the end of the registry. *)
Theorem add_subscriber_appends subscriber st :
  Forall (λ s, ApolloSubscriber.namespace s = Some (namespace st)) (_subscribers st) →
  ApolloSubscriber.namespace subscriber = Some (namespace st) →
  add_subscriber subscriber st
  = (Ok (), set_subscribers (_subscribers st ++ [subscriber]) st).
Proof.
  intros Hall Hs. rewrite add_subscriber_run.
  rewrite bool_decide_eq_true_2; [done|].
  rewrite Forall_app, Forall_singleton. by split.
Qed.

Lemma add_subscriber_appends_witness :
  add_subscriber (subscriber 7 "application") client_153
  = (Ok (), set_subscribers (_subscribers client_153 ++ [subscriber 7 "application"])
              client_153).
Proof.
  apply (add_subscriber_appends (subscriber 7 "application") client_153);
    [|done]. by repeat constructor.
Defined.

(** Once a subscriber of another namespace has been turned down, it sits in
    the registry, and every later registration fails with [ValueError] too,
    also that of a subscriber of the client's namespace. *)
Theorem add_subscriber_after_rejection rejected subscriber st :
  ApolloSubscriber.namespace rejected ≠ Some (namespace st) →
  add_subscriber subscriber (add_subscriber rejected st).2
  = (Raise ValueError, set_subscribers (_subscribers st ++ [rejected; subscriber]) st).
Proof.
  intros Hne. rewrite (add_subscriber_run rejected). cbn [snd].
  rewrite add_subscriber_run. cbn [_subscribers namespace set_subscribers].
  rewrite <-app_assoc. cbn [app].
  rewrite bool_decide_eq_false_2; [done|].
  rewrite Forall_app, Forall_cons. by intros (_ & ? & _).
Qed.

Lemma add_subscriber_after_rejection_witness :
  (add_subscriber (subscriber 2 "application")
     (add_subscriber (subscriber 1 "other") client0).2).1
  = Raise ValueError.
Proof.
  by rewrite (add_subscriber_after_rejection (subscriber 1 "other")
                (subscriber 2 "application") client0).
Defined.

Lemma notify_run st :
  notify st
  = for_each (sorted (_subscribers st)) notify_one
      (set_subscribers (sorted (_subscribers st)) st).
Proof. done. Qed.

Lemma notify_loop_stops pre s post e : ∀ st,
  Forall (λ x, outcome (configs st) x = Ok ()) pre →
  outcome (configs st) s = Raise e →
  for_each (pre ++ s :: post) notify_one st
  = (Raise e,
     set_calls (calls st ++
                notifications (configs st)
                  (pre ++ match argument_for (configs st) s with
                          | Ok _ => [s]
                          | Raise _ => []
                          end)) st).
Proof.
  induction pre as [|x pre IH]; intros st Hpre Hs.
  - cbn [app]. rewrite for_each_cons, notify_one_run.
    unfold outcome, argument_for, notifications in *.
    destruct (ApolloSubscriber.namespace s) as [ns|] eqn:Hns.
    + destruct (configs st !! ns) as [cfg|] eqn:Hcfg.
      * rewrite Hs. cbn. by rewrite Hns; cbn; rewrite Hcfg.
      * injection Hs as <-. cbn. by rewrite app_nil_r, set_calls_id.
    + rewrite Hs. cbn. by rewrite Hns.
  - apply Forall_cons in Hpre as [Hx Hpre].
    rewrite <-app_comm_cons, for_each_cons, notify_one_run.
    unfold outcome, argument_for in Hx.
    destruct (ApolloSubscriber.namespace x) as [ns|] eqn:Hns.
    + destruct (configs st !! ns) as [cfg|] eqn:Hcfg; [|done].
      rewrite Hx, IH by done. cbn [calls configs set_calls].
      f_equal. unfold notifications. rewrite <-app_comm_cons, fmap_cons, Hns. cbn.
      by rewrite Hcfg, <-app_assoc.
    + rewrite Hx, IH by done. cbn [calls configs set_calls].
      f_equal. unfold notifications. rewrite <-app_comm_cons, fmap_cons, Hns. cbn.
      by rewrite <-app_assoc.
Qed.

(** [notify] does not shield one subscriber from another: the first one, in
    priority order, whose callable raises, or whose namespace has no
    configuration yet ([KeyError]), ends the pass with that exception. The
    subscribers before it have been called, it has been called if it had an
    argument, and those after it are not called. *)
Theorem notify_stops_at_first_failure st pre s post e :
  sorted (_subscribers st) = pre ++ s :: post →
  Forall (λ x, outcome (configs st) x = Ok ()) pre →
  outcome (configs st) s = Raise e →
  (notify st).1 = Raise e
  ∧ calls (notify st).2
    = calls st ++ notifications (configs st)
                    (pre ++ match argument_for (configs st) s with
                            | Ok _ => [s]
                            | Raise _ => []
                            end).
Proof.
  intros Hsorted Hpre Hs. rewrite notify_run, Hsorted.
  by rewrite (notify_loop_stops pre s post e).
Qed.

Lemma notify_stops_at_first_failure_witness :
  (notify (set_subscribers
             [subscriber 1 "application";
              ApolloSubscriber.mk grumpy 5 (Some "application")] client_a)).1
  = Raise CallbackError
  ∧ length (calls (notify (set_subscribers
                             [subscriber 1 "application";
                              ApolloSubscriber.mk grumpy 5 (Some "application")]
                             client_a)).2)
    = 1%nat.
Proof.
  destruct (notify_stops_at_first_failure
              (set_subscribers
                 [subscriber 1 "application";
                  ApolloSubscriber.mk grumpy 5 (Some "application")] client_a)
              [] (ApolloSubscriber.mk grumpy 5 (Some "application"))
              [subscriber 1 "application"] CallbackError) as [Hr Hcalls].
  - by vm_compute.
  - by constructor.
  - by vm_compute.
  - split; [exact Hr|]. rewrite Hcalls. by vm_compute.
Defined.

(** ** Cache update and diff, continued *)



(** [update] writes [configs] and nothing the read API looks at: the entries
    of the other namespaces, the raw cache, the snapshot files and the release
    keys are as before, so [get_value] returns after an [update] what it
    returned before it. *)
Theorem update_leaves_read_api server_response ns st :
  let st' := (update server_response ns st).2 in
  (∀ ns', ns' ≠ ns → configs st' !! ns' = configs st !! ns')
  ∧ _cache st' = _cache st ∧ files st' = files st ∧ _hash st' = _hash st
  ∧ ∀ key default_val ns',
      (get_value key default_val ns' st').1 = (get_value key default_val ns' st).1.
Proof.
  cbn zeta. rewrite update_run.
  destruct (notify_calls (diffed server_response ns st)) as (n & -> & _).
  unfold diffed. cbn.
  split; [intros ns' Hne; by rewrite lookup_insert_ne|].
  repeat (split; [done|]).
  intros key default_val ns'. by rewrite !get_value_run.
Qed.



(** ** Loading the snapshots of the cache directory *)

Lemma rfind_from_append c a b : ∀ i found,
  rfind_from c (a +:+ b) i found
  = rfind_from c b (i + Z.of_nat (String.length a)) (rfind_from c a i found).
Proof.
  induction a as [|x a IH]; intros i found.
  - cbn. by rewrite Z.add_0_r.
  - rewrite append_cons. cbn [rfind_from String.length]. rewrite IH.
    f_equal. lia.
Qed.

Lemma rfind_from_absent c s : ∀ i found,
  has_char c s = false → rfind_from c s i found = found.
Proof.
  induction s as [|x s IH]; intros i found Hs; [done|].
  cbn in Hs. apply orb_false_iff in Hs as [Hx Hs].
  cbn [rfind_from]. rewrite Hx. by apply IH.
Qed.

Lemma rfind_last c a b :
  has_char c b = false →
  rfind c (a +:+ String c b) = Z.of_nat (String.length a).
Proof.
  intros Hb. unfold rfind. rewrite rfind_from_append. cbn [rfind_from].
  rewrite Ascii.eqb_refl. by rewrite rfind_from_absent.
Qed.

Lemma has_char_append c a b : has_char c (a +:+ b) = has_char c a || has_char c b.
Proof.
  induction a as [|x a IH]; [done|].
  rewrite append_cons. cbn [has_char]. by rewrite IH, orb_assoc.
Qed.

Lemma substring_prefix a b : String.substring 0 (String.length a) (a +:+ b) = a.
Proof.
  induction a as [|x a IH]; [by destruct b|].
  rewrite append_cons. cbn [String.length String.substring]. by rewrite IH.
Qed.

Lemma substring_all b : String.substring 0 (String.length b) b = b.
Proof. rewrite <-(append_nil_r b) at 2. apply substring_prefix. Qed.

Lemma substring_suffix a b :
  String.substring (String.length a) (String.length b) (a +:+ b) = b.
Proof.
  induction a as [|x a IH]; [apply substring_all|].
  rewrite append_cons. cbn [String.length String.substring]. exact IH.
Qed.

Lemma prefix_append a b : String.prefix a (a +:+ b) = true.
Proof. apply String.prefix_correct, substring_prefix. Qed.

Lemma all_dots_append a b : all_dots (a +:+ b) = all_dots a && all_dots b.
Proof.
  induction a as [|x a IH]; [done|].
  rewrite append_cons. cbn [all_dots]. by rewrite IH, andb_assoc.
Qed.

(** The extension of [base.txt] is [.txt], whatever dots [base] has. *)
Lemma splitext_txt base :
  has_char "/" base = false → all_dots base = false →
  splitext (base +:+ ".txt") = (base, ".txt").
Proof.
  intros Hsep Hdots. unfold splitext.
  assert (Hsep' : rfind "/" (base +:+ ".txt") = -1).
  { unfold rfind. apply rfind_from_absent. by rewrite has_char_append, Hsep. }
  assert (Hdot : rfind "." (base +:+ ".txt") = Z.of_nat (String.length base)).
  { by apply (rfind_last "." base "txt"). }
  rewrite Hsep', Hdot.
  replace (-1 <? Z.of_nat (String.length base)) with true by (symmetry; apply Z.ltb_lt; lia).
  replace (Z.to_nat (-1 + 1)) with 0%nat by done.
  replace (Z.to_nat (Z.of_nat (String.length base) - -1 - 1)) with (String.length base) by lia.
  rewrite Nat2Z.id, substring_prefix, Hdots. cbn [negb andb].
  rewrite length_append, Nat.add_comm, Nat.add_sub.
  by rewrite (substring_suffix base ".txt").
Qed.

Lemma last_field_from_after sep a b : ∀ cur,
  last_field_from sep (a +:+ String sep b) cur = last_field_from sep b "".
Proof.
  induction a as [|x a IH]; intros cur.
  - rewrite append_nil_l. cbn [last_field_from]. by rewrite Ascii.eqb_refl.
  - rewrite append_cons. cbn [last_field_from]. by destruct (Ascii.eqb x sep).
Qed.

Lemma last_field_from_absent sep b : ∀ cur,
  has_char sep b = false → last_field_from sep b cur = cur +:+ b.
Proof.
  induction b as [|x b IH]; intros cur Hb; [by rewrite append_nil_r|].
  cbn in Hb. apply orb_false_iff in Hb as [Hx Hb].
  cbn [last_field_from]. rewrite Hx, IH by done.
  by rewrite append_assoc.
Qed.

Lemma last_field_from_length sep b : ∀ cur,
  (String.length (last_field_from sep b cur) ≤ String.length cur + String.length b)%nat.
Proof.
  induction b as [|x b IH]; intros cur; cbn [last_field_from String.length]; [lia|].
  destruct (Ascii.eqb x sep).
  - specialize (IH ""). cbn [String.length] in IH. lia.
  - specialize (IH (cur +:+ String x "")).
    rewrite length_append in IH. cbn [String.length] in IH. lia.
Qed.

Lemma last_field_from_shorter sep b : ∀ cur,
  has_char sep b = true →
  (String.length (last_field_from sep b cur) < String.length b)%nat.
Proof.
  induction b as [|x b IH]; intros cur Hb; [done|].
  cbn [last_field_from String.length]. cbn [has_char] in Hb.
  destruct (Ascii.eqb x sep).
  - pose proof (last_field_from_length sep b "") as H.
    cbn [String.length] in H. lia.
  - specialize (IH (cur +:+ String x "") Hb). lia.
Qed.

Lemma snapshot_name_base st ns :
  snapshot_name st ns = (app_id st +:+ "_configuration_" +:+ ns) +:+ ".txt".
Proof. unfold snapshot_name. by rewrite !append_assoc. Qed.

Lemma snapshot_base_prefix app ns :
  String.prefix (app +:+ "_configuration_")
    (app +:+ "_configuration_" +:+ ns) = true.
Proof.
  pose proof (prefix_append (app +:+ "_configuration_") ns) as H.
  by rewrite append_assoc in H.
Qed.

Lemma snapshot_base_last_field app ns :
  last_field "_" (app +:+ "_configuration_" +:+ ns) = last_field "_" ns.
Proof.
  pose proof (last_field_from_after "_" (app +:+ "_configuration") ns) as H.
  rewrite append_assoc in H. apply H.
Qed.

Lemma set_cache_id st : set_cache (_cache st) st = st.
Proof. by destruct st. Qed.

Lemma load_local_cache_file_run st :
  load_local_cache_file st
  = match listdir st (_cache_file_dir_path st) with
    | Ok names =>
        match for_each names (load_one (_cache_file_dir_path st)) st with
        | (Ok _, st') => (Ok true, st')
        | (Raise _, st') => (Ok false, st')
        end
    | Raise _ => (Ok false, st)
    end.
Proof.
  unfold load_local_cache_file. run.
  destruct (listdir st (_cache_file_dir_path st)) as [names|e]; [|done].
  change (for_each names _ st)
    with (for_each names (load_one (_cache_file_dir_path st)) st).
  by destruct (for_each names _ st) as [[[]|e] st'].
Qed.

(** The turn of a namespace's snapshot file in the loop. *)
Lemma load_one_snapshot st ns text c :
  has_char "/" (app_id st) = false →
  has_char "/" ns = false →
  files st !! snapshot_path st ns = Some text →
  load_one (_cache_file_dir_path st) (snapshot_name st ns) (set_cache c st)
  = match json_loads st text with
    | Ok data => (Ok (), set_cache (<[last_field "_" ns := data]> c) st)
    | Raise e => (Raise e, set_cache c st)
    end.
Proof.
  intros Happ Hns Hfile. unfold load_one. run.
  change (files (set_cache c st)) with (files st).
  change (path_join (_cache_file_dir_path st) (snapshot_name st ns))
    with (snapshot_path st ns).
  rewrite Hfile, snapshot_name_base, splitext_txt.
  - change (String.eqb ".txt" ".swp") with false. run.
    change (app_id (set_cache c st)) with (app_id st).
    rewrite snapshot_base_prefix, snapshot_base_last_field. cbn [negb].
    change (json_loads (set_cache c st)) with (json_loads st).
    by destruct (json_loads st text).
  - by rewrite !has_char_append, Happ, Hns.
  - rewrite all_dots_append. apply andb_false_iff. by right.
Qed.

(** The loop over snapshot files that all load. *)
Lemma load_loop st l : ∀ c rest,
  has_char "/" (app_id st) = false →
  Forall (restorable st) l →
  for_each ((snapshot_name st <$> l.*1) ++ rest) (load_one (_cache_file_dir_path st))
    (set_cache c st)
  = for_each rest (load_one (_cache_file_dir_path st)) (set_cache (restored c l) st).
Proof.
  induction l as [|[ns data] l IH]; intros c rest Happ Hl; [done|].
  apply Forall_cons in Hl as [(Hns & text & Hfile & Htext) Hl].
  cbn [fst snd] in Hns, Hfile, Htext.
  rewrite !fmap_cons. cbn [fst app]. rewrite for_each_cons.
  rewrite (load_one_snapshot st ns text c Happ Hns Hfile), Htext.
  by rewrite IH.
Qed.

(** Cold start from the cache directory: when the directory lists the
    snapshot files of some namespaces and [json.loads] reads a value from
    each, [load_local_cache_file] returns [True] and has cached every file's
    value, in the order of the listing, under what follows the last underscore
    of its namespace's name; that is the namespace itself exactly when its
    name has no underscore. *)
Theorem load_local_cache_file_restores l st :
  listdir st (_cache_file_dir_path st) = Ok (snapshot_name st <$> l.*1) →
  has_char "/" (app_id st) = false →
  Forall (restorable st) l →
  load_local_cache_file st = (Ok true, set_cache (restored (_cache st) l) st)
  ∧ ∀ ns, last_field "_" ns = ns ↔ has_char "_" ns = false.
Proof.
  intros Hlist Happ Hl. split.
  - rewrite load_local_cache_file_run, Hlist.
    pose proof (load_loop st l (_cache st) [] Happ Hl) as Hloop.
    rewrite app_nil_r, set_cache_id in Hloop. by rewrite Hloop.
  - intros ns. split.
    + intros Hsame. destruct (has_char "_" ns) eqn:Hunder; [|done].
      pose proof (last_field_from_shorter "_" ns "" Hunder) as Hlen.
      unfold last_field in Hsame. rewrite Hsame in Hlen. lia.
    + intros Hunder. unfold last_field. by rewrite last_field_from_absent.
Qed.

Lemma load_local_cache_file_restores_witness :
  load_local_cache_file two_snapshots
  = (Ok true,
     set_cache {["dev.yml" := PList [PInt 1; PInt 2]; "application" := PDict []]}
       two_snapshots).
Proof.
  rewrite (proj1 (load_local_cache_file_restores
                    [("dev.yml", PList [PInt 1; PInt 2]); ("application", PDict [])]
                    two_snapshots eq_refl eq_refl
                    ltac:(repeat constructor; eexists; by vm_compute))).
  by vm_compute.
Defined.

(** One snapshot file on which [json.loads] raises, whatever the exception,
    ends the cold start: [load_local_cache_file] returns [False], the
    snapshots listed before it are in the cache, and those listed after it are
    not looked at. *)
Theorem load_local_cache_file_stops_at_corrupt l bad text e rest st :
  listdir st (_cache_file_dir_path st)
  = Ok ((snapshot_name st <$> l.*1) ++ snapshot_name st bad :: rest) →
  has_char "/" (app_id st) = false →
  Forall (restorable st) l →
  has_char "/" bad = false →
  files st !! snapshot_path st bad = Some text →
  json_loads st text = Raise e →
  load_local_cache_file st = (Ok false, set_cache (restored (_cache st) l) st).
Proof.
  intros Hlist Happ Hl Hbad Hfile Htext.
  rewrite load_local_cache_file_run, Hlist.
  pose proof (load_loop st l (_cache st) (snapshot_name st bad :: rest) Happ Hl)
    as Hloop.
  rewrite set_cache_id in Hloop. rewrite Hloop, for_each_cons.
  by rewrite (load_one_snapshot st bad text _ Happ Hbad Hfile), Htext.
Qed.

Lemma load_local_cache_file_stops_at_corrupt_witness :
  load_local_cache_file torn_snapshot
  = (Ok false, set_cache {["dev.yml" := PList [PInt 1; PInt 2]]} torn_snapshot).
Proof.
  rewrite (load_local_cache_file_stops_at_corrupt
             [("dev.yml", PList [PInt 1; PInt 2])] "broken" "[1, " JSONDecodeError
             ["app_configuration_application.txt"] torn_snapshot eq_refl eq_refl
             ltac:(repeat constructor; eexists; by vm_compute)
             eq_refl eq_refl eq_refl).
  by vm_compute.
Defined.
